(** * A shallow embedding of [two_captcha_client.js]

    The client of the captcha-solving service is a JavaScript class whose
    methods talk to three collaborators: the HTTP transport, the file system
    and the timer/clock.  The methods are embedded as computations in a small
    state-and-exception monad over a [World] that holds the clock and the
    chronological trace of everything the client did to its collaborators. *)

From Stdlib Require Import ZArith Lia Ascii String.
From Stdlib.Strings Require Import Byte.
From stdpp Require Import base strings list gmap fin_maps.

Local Open Scope Z_scope.
Local Open Scope string_scope.
Local Open Scope list_scope.

(** ** JavaScript values *)

(** The primitive values that flow through the client: option fields,
    payload fields, the API key. *)
Inductive JsVal :=
| JUndefined
| JBool (b : bool)
| JNum (n : Z)
| JStr (s : string)
| JBuffer (bs : list Byte.byte).

(** JavaScript truthiness ([if (v)], [!v], [v ? a : b], [v || w]). *)
Definition truthy (v : JsVal) : bool :=
  match v with
  | JUndefined => false
  | JBool b => b
  | JNum n => negb (Z.eqb n 0)
  | JStr s => negb (String.eqb s "")
  | JBuffer _ => true
  end.

(** [a || b] *)
Definition js_or (a b : JsVal) : JsVal := if truthy a then a else b.

(** [v === 'lit'] for a string literal. *)
Definition strict_eq_str (v : JsVal) (lit : string) : bool :=
  match v with
  | JStr s => String.eqb s lit
  | _ => false
  end.

(** [typeof v !== 'string'] *)
Definition typeof_not_string (v : JsVal) : bool :=
  match v with
  | JStr _ => false
  | _ => true
  end.

(** A plain JavaScript object used as a record of named fields; a key can be
    present with the value [undefined]. *)
Abbreviation JsObject := (gmap string JsVal).

(** Property read [o.k]: [undefined] when the key is absent. *)
Definition prop (o : JsObject) (k : string) : JsVal := default JUndefined (o !! k).

(** Object spread [{...a, ...b}]: the fields of [b] win. *)
Definition spread (a b : JsObject) : JsObject := b ∪ a.

(** ** Strings *)

(** [s.startsWith(p)] *)
Fixpoint starts_with (p s : string) : bool :=
  match p, s with
  | EmptyString, _ => true
  | String a p', String b s' => Ascii.eqb a b && starts_with p' s'
  | String _ _, EmptyString => false
  end.

(** [s.includes(needle)] *)
Fixpoint includes (s needle : string) : bool :=
  starts_with needle s ||
  match s with
  | EmptyString => false
  | String _ s' => includes s' needle
  end.

(** Drops the first [n] characters. *)
Fixpoint skip (n : nat) (s : string) : string :=
  match n, s with
  | O, _ => s
  | S n', String _ s' => skip n' s'
  | S _, EmptyString => EmptyString
  end.

(** [s.replace(pat, rep)] for a string pattern: only the first occurrence is
    replaced ([rep] holds no [$] pattern at the call sites). *)
Fixpoint replace (pat rep s : string) : string :=
  if starts_with pat s then rep +:+ skip (String.length pat) s
  else match s with
       | EmptyString => EmptyString
       | String c s' => String c (replace pat rep s')
       end.

(** [s.split(sep)] for a one-character separator. *)
Fixpoint split (sep : ascii) (s : string) : list string :=
  match s with
  | EmptyString => [EmptyString]
  | String c s' =>
      if Ascii.eqb c sep then EmptyString :: split sep s'
      else match split sep s' with
           | h :: t => String c h :: t
           | [] => [String c EmptyString]
           end
  end.

(** [s.split(sep, limit)]: the array is cut to its first [limit] pieces. *)
Definition split_limit (sep : ascii) (limit : nat) (s : string) : list string :=
  take limit (split sep s).

(** Array read [arr[i]], [undefined] out of range. *)
Definition at_index (arr : list string) (i : nat) : JsVal :=
  match arr !! i with
  | Some s => JStr s
  | None => JUndefined
  end.

(** [res.split('|', 2)[1]] *)
Definition second_field (res : string) : JsVal :=
  at_index (split_limit "|"%char 2 res) 1.

(** ** Base64 ([buffer.toString('base64')]) *)

Definition b64_alphabet : string :=
  "ABCDEFGHIJKLMNOPQRSTUVWXYZabcdefghijklmnopqrstuvwxyz0123456789+/".

Definition b64_char (n : N) : ascii :=
  match String.get (N.to_nat n) b64_alphabet with
  | Some c => c
  | None => "="%char
  end.

Fixpoint base64 (bs : list Byte.byte) : string :=
  match bs with
  | [] => EmptyString
  | [a] =>
      let x := Byte.to_N a in
      String (b64_char (x / 4))
        (String (b64_char ((x mod 4) * 16)) "==")
  | [a; b] =>
      let x := Byte.to_N a in
      let y := Byte.to_N b in
      String (b64_char (x / 4))
        (String (b64_char ((x mod 4) * 16 + y / 16))
           (String (b64_char ((y mod 16) * 4)) "="))
  | a :: b :: c :: rest =>
      let x := Byte.to_N a in
      let y := Byte.to_N b in
      let z := Byte.to_N c in
      String (b64_char (x / 4))
        (String (b64_char ((x mod 4) * 16 + y / 16))
           (String (b64_char ((y mod 16) * 4 + z / 64))
              (String (b64_char (z mod 64)) (base64 rest))))
  end%N.

(** ** The collaborators and the world *)

(** What a promise of a collaborator settles to. *)
Inductive IOResult (A : Type) :=
| Resolved (a : A)
| Rejected (reason : string).
Arguments Resolved {A} a.
Arguments Rejected {A} reason.

(** The argument of [HTTPRequest.request]. *)
Record Request := {
  url : string;
  request_timeout : Z;
  method : string;
  payload : JsObject
}.

(** Everything the client does to the outside, in the order it happens. *)
Inductive Event :=
| EHttp (req : Request) (reply : IOResult string)
| EOpenDataURL (target : JsVal) (reply : IOResult (list Byte.byte))
| EReadFile (path : JsVal) (reply : IOResult (list Byte.byte))
| ESleep (ms : Z)
| EWarn (message : string).

(** [now] is what [Date.now()] reads, in milliseconds. *)
Record World := {
  now : Z;
  trace : list Event
}.

(** The environment answers the requests and says how long each event
    takes; both may depend on all that happened before. *)
Record Env := {
  http_reply : World -> Request -> IOResult string;
  data_url_reply : World -> JsVal -> IOResult (list Byte.byte);
  read_file_reply : World -> JsVal -> IOResult (list Byte.byte);
  elapse : World -> Event -> Z
}.

Inductive JsError :=
| Error (message : string)
| RangeError (message : string)
| Rejection (reason : string).

(** ** The monad of the client's methods *)

Inductive Outcome (A : Type) :=
| Returned (a : A)
| Raised (e : JsError)
| OutOfFuel.
Arguments Returned {A} a.
Arguments Raised {A} e.
Arguments OutOfFuel {A}.

Definition M (A : Type) : Type := World -> Outcome A * World.

Definition ret {A} (a : A) : M A := fun w => (Returned a, w).

Definition raise {A} (e : JsError) : M A := fun w => (Raised e, w).

Definition out_of_fuel {A} : M A := fun w => (OutOfFuel, w).

Definition bind {A B} (m : M A) (k : A -> M B) : M B :=
  fun w =>
    match m w with
    | (Returned a, w') => k a w'
    | (Raised e, w') => (Raised e, w')
    | (OutOfFuel, w') => (OutOfFuel, w')
    end.

Notation "x <- m ;; k" := (bind m (fun x => k))
  (at level 100, m at next level, right associativity).
Notation "m ;; k" := (bind m (fun _ => k))
  (at level 100, right associativity).

(** [if (b) stmt;] *)
Definition when {A} (b : bool) (m : M A) : M unit :=
  if b then m ;; ret tt else ret tt.

(** [await] of an already settled promise. *)
Definition await {A} (r : IOResult A) : M A :=
  match r with
  | Resolved a => ret a
  | Rejected reason => raise (Rejection reason)
  end.

(** ** The Captcha object *)

(** Modelled from the spec: the Captcha class of [captcha.js], whose source
    is not at hand.  The spec's Solution "holds the TaskHandle, the raw response
    payload, and the extracted solution text"; the client assigns exactly the
    fields [id], [apiResponse] and [text], and a fresh object has none of
    them. *)
Module Captcha.
Record t := mk {
  id : JsVal;
  apiResponse : JsVal;
  text : JsVal
}.
Definition new : t := mk JUndefined JUndefined JUndefined.
Definition set_id (c : t) (v : JsVal) : t := mk v (apiResponse c) (text c).
Definition set_apiResponse (c : t) (v : JsVal) : t := mk (id c) v (text c).
Definition set_text (c : t) (v : JsVal) : t := mk (id c) (apiResponse c) v.
End Captcha.

(** What a [decode...] call hands back: the Captcha object, or [undefined]
    after the bare [return;]. *)
Inductive Result :=
| Object (c : Captcha.t)
| Undefined.

(** Every object is truthy, [undefined] is not. *)
Definition truthy_result (r : Result) : bool :=
  match r with
  | Object _ => true
  | Undefined => false
  end.

(** ** The client *)

Record TwoCaptchaClient := {
  key : JsVal;
  timeout : Z;
  polling : Z;
  throwErrors : bool
}.

(** The [params] argument of the constructor; an absent field takes its
    default. *)
Record Params := {
  params_timeout : option Z;
  params_polling : option Z;
  params_throwErrors : option bool
}.

Definition no_params : Params := Build_Params None None None.

Definition baseUrl : string := "https://rucaptcha.com/<action>.php".

Definition NOT_SOLVED_YET : string := "Your captcha is not solved yet.".

Definition OK_REPORT_RECORDED : string := "OK_REPORT_RECORDED".

(** [x.toString('base64')]: the encoding for a Buffer; a string returns
    itself, a boolean its name, and a number rejects the radix. *)
Definition toString_base64 (v : JsVal) : M JsVal :=
  match v with
  | JBuffer bs => ret (JStr (base64 bs))
  | JStr s => ret (JStr s)
  | JBool b => ret (JStr (if b then "true" else "false"))
  | JNum _ => raise (RangeError "toString() radix argument must be between 2 and 36")
  | JUndefined => raise (Error "Cannot read properties of undefined")
  end.

(** A [Date] object: it holds a time, whose ISO text [toISOString()]
    returns, or it is an invalid date, on which [toISOString()] raises. *)
Inductive JsDate :=
| ValidDate (iso : string)
| InvalidDate.

Definition toISOString (date : JsDate) : M string :=
  match date with
  | ValidDate iso => ret iso
  | InvalidDate => raise (RangeError "Invalid time value")
  end.

(** The members that every plain object inherits from [Object.prototype],
    each given by the text that [String(member)] yields; all of them are
    truthy. *)
Definition object_prototype_functions : list string :=
  [ "hasOwnProperty"; "isPrototypeOf"; "propertyIsEnumerable"; "toLocaleString";
    "toString"; "valueOf"; "__defineGetter__"; "__defineSetter__";
    "__lookupGetter__"; "__lookupSetter__" ].

Definition object_prototype_member (name : string) : option string :=
  if String.eqb name "constructor" then Some "function Object() { [native code] }"
  else if String.eqb name "__proto__" then Some "[object Object]"
  else if existsb (String.eqb name) object_prototype_functions
       then Some ("function " +:+ name +:+ "() { [native code] }")
       else None.

Section Client.

Variable env : Env.

(** [constants.errors]: the table from remote error codes to messages.
    The source of [constants.js] is not at hand, so the table is a
    parameter. *)
Variable errors : gmap string string.

(** One event happens: it is appended to the trace and the clock moves. *)
Definition after (w : World) (e : Event) : World :=
  {| now := now w + elapse env w e; trace := trace w ++ [e] |}.

Definition happen (e : Event) : M unit := fun w => (Returned tt, after w e).

Definition Date_now : M Z := fun w => (Returned (now w), w).

Definition console_warn (message : string) : M unit := happen (EWarn message).

Definition _sleep (ms : Z) : M unit := happen (ESleep ms).

Definition HTTPRequest_request (req : Request) : M string :=
  fun w => let reply := http_reply env w req in
           (happen (EHttp req reply) ;; await reply) w.

Definition HTTPRequest_openDataURL (target : JsVal) : M (list Byte.byte) :=
  fun w => let reply := data_url_reply env w target in
           (happen (EOpenDataURL target reply) ;; await reply) w.

Definition readFileAsync (path : JsVal) : M (list Byte.byte) :=
  fun w => let reply := read_file_reply env w path in
           (happen (EReadFile path reply) ;; await reply) w.

Definition _throwError (this : TwoCaptchaClient) (message : string) : M JsVal :=
  if String.eqb message NOT_SOLVED_YET then ret (JBool false)
  else if throwErrors this then raise (Error message)
  else console_warn message ;; ret (JBool false).

Definition new_TwoCaptchaClient (k : JsVal) (params : Params) : M TwoCaptchaClient :=
  let this := {| key := k;
                 timeout := default 60000 (params_timeout params);
                 polling := default 5000 (params_polling params);
                 throwErrors := default false (params_throwErrors params) |} in
  when (typeof_not_string k) (_throwError this "2Captcha key must be a string") ;;
  ret this.

(** [constants.errors[body]]: the table is a plain object, so the lookup
    finds the table's own entry and, failing that, an inherited member of
    [Object.prototype].  A member is given by its text, which is what
    [new Error(member)] keeps as its message; a [console.warn(member)] is
    recorded with the same text. *)
Definition errors_at (body : string) : JsVal :=
  match errors !! body with
  | Some message => JStr message
  | None =>
      match object_prototype_member body with
      | Some text => JStr text
      | None => JUndefined
      end
  end.

(** The [message] that [_validateResponse] computes; [None] stands for its
    [return true] branch. *)
Definition response_message (body : string) : option string :=
  if truthy (errors_at body) then
    match errors_at body with
    | JStr message => Some message
    | _ => None
    end
  else if String.eqb body "" || includes body "ERROR"
       then Some ("Unknown 2Captcha error: " +:+ body)
       else None.

Definition _validateResponse (this : TwoCaptchaClient) (body : string) : M JsVal :=
  match response_message body with
  | Some message => _throwError this message
  | None => ret (JBool true)
  end.

(** The object [_request] passes to [HTTPRequest.request]. *)
Definition api_request (this : TwoCaptchaClient) (action meth : string)
    (args : JsObject) : Request :=
  {| url := replace "<action>" action baseUrl;
     request_timeout := timeout this;
     method := meth;
     payload := <["soft_id" := JNum 2386]> (<["key" := key this]> args) |}.

Definition _request (this : TwoCaptchaClient) (action meth : string)
    (args : JsObject) : M string :=
  req <- HTTPRequest_request (api_request this action meth args) ;;
  _validateResponse this req ;;
  ret req.

Definition balance (this : TwoCaptchaClient) : M string :=
  res <- _request this "res" "get" {[ "action" := JStr "getbalance" ]} ;;
  ret res.

(** [{ id: captchaId, action: 'get' }] *)
Definition poll_args (captchaId : JsVal) : JsObject :=
  <["action" := JStr "get"]> {[ "id" := captchaId ]}.

Definition captcha (this : TwoCaptchaClient) (captchaId : JsVal) : M Captcha.t :=
  res <- _request this "res" "get" (poll_args captchaId) ;;
  let decodedCaptcha := Captcha.new in
  let decodedCaptcha := Captcha.set_id decodedCaptcha captchaId in
  let decodedCaptcha := Captcha.set_apiResponse decodedCaptcha (JStr res) in
  let decodedCaptcha := Captcha.set_text decodedCaptcha (second_field res) in
  ret decodedCaptcha.

Definition load (this : TwoCaptchaClient) : M string :=
  _request this "load" "get" ∅.

(** [{ action: 'getstats', date: iso.slice(0, 10) }] *)
Definition stats_args (iso : string) : JsObject :=
  <["action" := JStr "getstats"]> {[ "date" := JStr (String.substring 0 10 iso) ]}.

Definition stats (this : TwoCaptchaClient) (date : JsDate) : M string :=
  iso <- toISOString date ;;
  res <- _request this "res" "get" (stats_args iso) ;;
  ret res.

Definition _loadCaptcha (this : TwoCaptchaClient) (options : JsObject) : M JsVal :=
  if truthy (prop options "base64") then
    ret (prop options "base64")
  else if truthy (prop options "buffer") then
    toString_base64 (prop options "buffer")
  else if truthy (prop options "path") then
    fileBinary <- readFileAsync (prop options "path") ;;
    toString_base64 (JBuffer fileBinary)
  else if truthy (prop options "url") then
    image <- HTTPRequest_openDataURL (prop options "url") ;;
    toString_base64 (JBuffer image)
  else
    _throwError this "No image data received" ;;
    ret JUndefined.

(** The [args] object that [_upload] builds from its [options]. *)
Definition upload_args (options : JsObject) : JsObject :=
  let args : JsObject := ∅ in
  let args := if truthy (prop options "base64")
              then <["body" := prop options "base64"]> args else args in
  let args := <["method" := js_or (prop options "method") (JStr "base64")]> args in
  let args := spread args options in
  let args := delete "base64" args in
  let args := delete "buffer" args in
  let args := delete "path" args in
  let args := delete "url" args in
  args.

Definition _upload (this : TwoCaptchaClient) (options : JsObject) : M Captcha.t :=
  let args := upload_args options in
  res <- _request this "in" "post" args ;;
  _validateResponse this res ;;
  let decodedCaptcha := Captcha.new in
  let decodedCaptcha := Captcha.set_id decodedCaptcha (second_field res) in
  ret decodedCaptcha.

(** [{ action: bad ? 'reportbad' : 'reportgood', id: captchaId }] *)
Definition report_args (captchaId : JsVal) (bad : bool) : JsObject :=
  <["id" := captchaId]>
    {[ "action" := JStr (if bad then "reportbad" else "reportgood") ]}.

Definition report (this : TwoCaptchaClient) (captchaId : JsVal) (bad : bool) : M bool :=
  res <- _request this "res" "get" (report_args captchaId bad) ;;
  ret (String.eqb res OK_REPORT_RECORDED).

(** The polling loop, written out once: the four [decode...] methods hold
    the same [while (!decodedCaptcha.text)] loop and differ only in the
    argument [delay] of [_sleep].  [fuel] bounds the number of
    iterations. *)
Fixpoint poll_loop (fuel : nat) (this : TwoCaptchaClient) (delay startedAt : Z)
    (decodedCaptcha : Captcha.t) : M Result :=
  if negb (truthy (Captcha.text decodedCaptcha)) then
    match fuel with
    | O => out_of_fuel
    | S fuel' =>
        _sleep delay ;;
        t <- Date_now ;;
        if t - startedAt >? timeout this then
          _throwError this "Captcha timeout" ;;
          ret Undefined
        else
          decodedCaptcha' <- captcha this (Captcha.id decodedCaptcha) ;;
          poll_loop fuel' this delay startedAt decodedCaptcha'
    end
  else ret (Object decodedCaptcha).

Definition decode (fuel : nat) (this : TwoCaptchaClient) (options : JsObject) : M Result :=
  startedAt <- Date_now ;;
  when (typeof_not_string (key this)) (_throwError this "2Captcha key must be a string") ;;
  base64 <- _loadCaptcha this options ;;
  decodedCaptcha <- _upload this (<["base64" := base64]> options) ;;
  poll_loop fuel this (polling this) startedAt decodedCaptcha.

Definition flag (v : JsVal) : JsVal := if truthy v then JNum 1 else JNum 0.

Definition decodeRecaptchaV2 (fuel : nat) (this : TwoCaptchaClient) (options : JsObject)
    : M Result :=
  startedAt <- Date_now ;;
  when (strict_eq_str (prop options "googlekey") "")
       (_throwError this "Missing googlekey parameter") ;;
  when (strict_eq_str (prop options "pageurl") "")
       (_throwError this "Missing pageurl parameter") ;;
  let upload_options : JsObject :=
    <["method" := JStr "userrecaptcha"]>
      (<["googlekey" := prop options "googlekey"]>
         (<["pageurl" := prop options "pageurl"]>
            (<["invisible" := flag (prop options "invisible")]>
               {[ "enterprise" := flag (prop options "enterprise") ]}))) in
  decodedCaptcha <- _upload this upload_options ;;
  poll_loop fuel this (Z.max (polling this) 10) startedAt decodedCaptcha.

Definition decodeRecaptchaV3 (fuel : nat) (this : TwoCaptchaClient) (options : JsObject)
    : M Result :=
  startedAt <- Date_now ;;
  when (strict_eq_str (prop options "googlekey") "")
       (_throwError this "Missing googlekey parameter") ;;
  when (strict_eq_str (prop options "pageurl") "")
       (_throwError this "Missing pageurl parameter") ;;
  let upload_options : JsObject :=
    <["method" := JStr "userrecaptcha"]>
      (<["googlekey" := prop options "googlekey"]>
         (<["pageurl" := prop options "pageurl"]>
            (<["version" := JStr "v3"]>
               (<["action" := if truthy (prop options "action")
                              then prop options "action" else JStr ""]>
                  {[ "enterprise" := flag (prop options "enterprise") ]})))) in
  decodedCaptcha <- _upload this upload_options ;;
  poll_loop fuel this (Z.max (polling this) 10) startedAt decodedCaptcha.

Definition decodeHCaptcha (fuel : nat) (this : TwoCaptchaClient) (options : JsObject)
    : M Result :=
  startedAt <- Date_now ;;
  when (strict_eq_str (prop options "sitekey") "")
       (_throwError this "Missing sitekey parameter") ;;
  when (strict_eq_str (prop options "pageurl") "")
       (_throwError this "Missing pageurl parameter") ;;
  let upload_options : JsObject :=
    <["method" := JStr "hcaptcha"]>
      (<["sitekey" := prop options "sitekey"]>
         (<["pageurl" := prop options "pageurl"]>
            {[ "invisible" := flag (prop options "invisible") ]})) in
  decodedCaptcha <- _upload this upload_options ;;
  poll_loop fuel this (Z.max (polling this) 10) startedAt decodedCaptcha.

End Client.


(** ** The vocabulary of the properties *)

(** [needle] occurs in [s]. *)
Definition contains (needle s : string) : Prop :=
  exists a b, s = a +:+ needle +:+ b.

(** The classes of the error taxonomy. *)
Inductive Classification :=
| RemoteError (code message : string)
| UnknownRemoteError (body : string)
| Valid.

(** Every message of the table is a non-empty string. *)
Definition messages_nonempty (errors : gmap string string) : Prop :=
  forall code message, errors !! code = Some message -> message <> "".

Section Taxonomy.

Variable env : Env.
Variable errors : gmap string string.

(** The taxonomy, in the words of its table: a known code; otherwise an
    empty body or one that contains ERROR; otherwise valid. *)
Inductive classified (body : string) : Classification -> Prop :=
| classified_known message :
    errors !! body = Some message ->
    classified body (RemoteError body message)
| classified_unknown :
    errors !! body = None ->
    body = "" \/ contains "ERROR" body ->
    classified body (UnknownRemoteError body)
| classified_valid :
    errors !! body = None ->
    body <> "" -> ~ contains "ERROR" body ->
    classified body Valid.

(** What the validator does with a body of each class. *)
Definition handled (this : TwoCaptchaClient) (c : Classification) : M JsVal :=
  match c with
  | RemoteError _ message => _throwError env this message
  | UnknownRemoteError body => _throwError env this ("Unknown 2Captcha error: " +:+ body)
  | Valid => ret (JBool true)
  end.

(** The message that the taxonomy gives a body: the table's own message
    for a known code, the unknown-error text for an unlisted body that is
    empty or contains ERROR, none for any other body. *)
Definition taxonomy_message (body : string) : option string :=
  match errors !! body with
  | Some message =>
      if truthy (JStr message) then Some message
      else if String.eqb body "" || includes body "ERROR"
           then Some ("Unknown 2Captcha error: " +:+ body)
           else None
  | None =>
      if String.eqb body "" || includes body "ERROR"
      then Some ("Unknown 2Captcha error: " +:+ body)
      else None
  end.

(** A body classified as a remote error with [message], the "not solved
    yet" signal apart. *)
Definition remote_error (body message : string) : Prop :=
  taxonomy_message body = Some message /\ message <> NOT_SOLVED_YET.

(** A body that the validator reports through [_throwError] with
    [message], the "not solved yet" signal apart. *)
Definition reported_error (body message : string) : Prop :=
  response_message errors body = Some message /\ message <> NOT_SOLVED_YET.

End Taxonomy.

(** ** Sample collaborators, to run the client on concrete inputs *)

(** A table in the shape of [constants.errors]. *)
Definition sample_errors : gmap string string :=
  {[ "CAPCHA_NOT_READY" := NOT_SOLVED_YET;
     "ERROR_ZERO_BALANCE" := "You don't have funds on your account.";
     "ERROR_WRONG_CAPTCHA_ID" := "You've provided incorrect captcha ID." ]}.

(** How many requests the transport has answered so far. *)
Fixpoint answered (tr : list Event) : nat :=
  match tr with
  | [] => O
  | EHttp _ _ :: tr' => S (answered tr')
  | _ :: tr' => answered tr'
  end.

(** An environment whose transport answers its n-th request with the n-th
    body of [script] and every later one with [last_body]; a file or URL
    holds [content]; a timer takes the time asked for (one millisecond at
    least) and nothing else takes time. *)
Definition scripted (script : list string) (last_body : string)
    (content : list Byte.byte) : Env :=
  {| http_reply := fun w _ => Resolved (nth (answered (trace w)) script last_body);
     data_url_reply := fun _ _ => Resolved content;
     read_file_reply := fun _ _ => Resolved content;
     elapse := fun _ e => match e with ESleep ms => Z.max 1 ms | _ => 0 end |}.

Definition sample_client (throw : bool) : TwoCaptchaClient :=
  {| key := JStr "0123456789abcdef"; timeout := 50; polling := 20; throwErrors := throw |}.

Definition start : World := {| now := 0; trace := [] |}.

(** Projections of a trace. *)
Definition requests (tr : list Event) : list Request :=
  omap (fun e => match e with EHttp req _ => Some req | _ => None end) tr.

Definition sleeps (tr : list Event) : list Z :=
  omap (fun e => match e with ESleep ms => Some ms | _ => None end) tr.

Definition warnings (tr : list Event) : list string :=
  omap (fun e => match e with EWarn message => Some message | _ => None end) tr.

(** The events that go over the network: API requests and image fetches. *)
Definition is_network_call (e : Event) : bool :=
  match e with
  | EHttp _ _ | EOpenDataURL _ _ => true
  | _ => false
  end.

Definition network_calls (tr : list Event) : list Event :=
  List.filter is_network_call tr.

(** The shape of what a polling loop with sleep argument [d] adds to the
    trace: rounds of one sleep of [d] followed by one poll request (and the
    warnings that the poll logs), possibly ended by a last sleep of [d] on
    which the timeout fires. *)
Inductive polling_trace (d : Z) : list Event -> Prop :=
| polling_stop :
    polling_trace d []
| polling_timeout ws :
    polling_trace d (ESleep d :: map EWarn ws)
| polling_round req reply ws evs :
    polling_trace d evs ->
    polling_trace d (ESleep d :: EHttp req reply :: map EWarn ws ++ evs).

(** A computation that never sleeps: it only appends events that are not
    timers. *)
Definition sleepless {A} (m : M A) : Prop :=
  forall w, exists pre,
    trace (snd (m w)) = trace w ++ pre /\ sleeps pre = [].

(** A computation that, after a part without any sleep, only runs polling
    rounds whose sleep argument is [d]. *)
Definition polls_with (d : Z) (m : M Result) : Prop :=
  forall w, exists pre evs,
    trace (snd (m w)) = trace w ++ pre ++ evs
    /\ sleeps pre = []
    /\ polling_trace d evs
    /\ Forall (fun ms => ms = d) (sleeps (pre ++ evs)).

(** ** The vocabulary of the timeout property *)

(** How a [decode...] call ends when its timeout fires. *)
Definition timeout_outcome (this : TwoCaptchaClient) : Outcome Result :=
  if throwErrors this then Raised (Error "Captcha timeout") else Returned Undefined.

Definition timeout_events (this : TwoCaptchaClient) : list Event :=
  if throwErrors this then [] else [EWarn "Captcha timeout"].

(** One round of a polling loop: the sleep, then the poll and its reply. *)
Definition round (d : Z) (req : Request) (body : string) : list Event :=
  [ESleep d; EHttp req (Resolved body)].

(** A body by which the remote says "not solved yet". *)
Definition pending_body (errors : gmap string string) (body : string) : Prop :=
  errors !! body = Some NOT_SOLVED_YET /\ truthy (second_field body) = false.

(** The transport answers every poll with a "not solved yet" body. *)
Definition always_pending (env : Env) (errors : gmap string string)
    (this : TwoCaptchaClient) : Prop :=
  forall w captchaId, exists body,
    http_reply env w (api_request this "res" "get" (poll_args captchaId)) = Resolved body
    /\ pending_body errors body.

(** The transport answers every submission with a valid body. *)
Definition always_accepts (env : Env) (errors : gmap string string)
    (this : TwoCaptchaClient) : Prop :=
  forall w args, exists body,
    http_reply env w (api_request this "in" "post" args) = Resolved body
    /\ response_message errors body = None.

(** No event makes [Date.now()] go back. *)
Definition clock_monotone (env : Env) : Prop :=
  forall w e, 0 <= elapse env w e.

(** A timer set for [d] milliseconds takes [D] milliseconds at least. *)
Definition timer_at_least (env : Env) (d D : Z) : Prop :=
  forall w, D <= elapse env w (ESleep d).

(** A service that accepts every submission and never has a solution. *)
Definition never_solving (content : list Byte.byte) : Env :=
  {| http_reply := fun _ req =>
       if String.eqb (url req) "https://rucaptcha.com/in.php"
       then Resolved "OK|2122988149" else Resolved "CAPCHA_NOT_READY";
     data_url_reply := fun _ _ => Resolved content;
     read_file_reply := fun _ _ => Resolved content;
     elapse := fun _ e => match e with ESleep ms => Z.max 1 ms | _ => 0 end |}.

(** The run of [m] from [w] ends by the timeout: one submission, then at
    most [timeout / D] rounds of a sleep of [d] and a poll, then a last
    sleep of [d] after which more than [timeout] milliseconds have passed
    since the call began. *)
Definition times_out (this : TwoCaptchaClient) (d D : Z) (m : M Result) (w : World)
    : Prop :=
  exists submission sub poll bodies w',
    m w = (timeout_outcome this, w')
    /\ (length bodies <= Z.to_nat (timeout this / D))%nat
    /\ trace w' =
         trace w ++ EHttp submission (Resolved sub)
                 :: concat (map (round d poll) bodies)
                 ++ ESleep d :: timeout_events this
    /\ timeout this < now w' - now w.

(** The reply of the last API request of a trace. *)
Fixpoint last_reply (tr : list Event) : option (IOResult string) :=
  match tr with
  | [] => None
  | e :: tr' =>
      match last_reply tr' with
      | Some reply => Some reply
      | None => match e with
                | EHttp _ reply => Some reply
                | _ => None
                end
      end
  end.

(** The Captcha [c] is the answer to the last API request of the trace [tr],
    and its text is the second field of that answer. *)
Definition solved_by_last_reply (c : Captcha.t) (tr : list Event) : Prop :=
  exists body,
    last_reply tr = Some (Resolved body)
    /\ Captcha.apiResponse c = JStr body
    /\ Captcha.text c = second_field body
    /\ truthy (Captcha.text c) = true.

(** The first API request that [decode], run from [w], hands to the
    transport. *)
Definition first_submission (env : Env) (errors : gmap string string) (fuel : nat)
    (this : TwoCaptchaClient) (options : JsObject) (w : World) : option Request :=
  drop (length (requests (trace w)))
       (requests (trace (snd (decode env errors fuel this options w)))) !! 0%nat.

(** ** The vocabulary of the further properties *)

(** The API requests of a trace with their replies. *)
Definition exchanges (tr : list Event) : list (Request * IOResult string) :=
  omap (fun e => match e with EHttp req reply => Some (req, reply) | _ => None end) tr.

(** A computation that only appends events that satisfy [P]. *)
Definition emits {A} (P : Event -> Prop) (m : M A) : Prop :=
  forall w, exists evs,
    trace (snd (m w)) = trace w ++ evs /\ Forall P evs.

(** A computation whose exceptions all satisfy [Q]. *)
Definition raises_only {A} (Q : JsError -> Prop) (m : M A) : Prop :=
  forall w e w', m w = (Raised e, w') -> Q e.

(** A computation that never returns before [d] milliseconds have passed. *)
Definition takes_at_least {A} (d : Z) (m : M A) : Prop :=
  forall w a w', m w = (Returned a, w') -> now w + d <= now w'.

(** A request that carries the client's key, the fixed [soft_id] and the
    client's timeout. *)
Definition signed (this : TwoCaptchaClient) (req : Request) : Prop :=
  payload req !! "key" = Some (key this)
  /\ payload req !! "soft_id" = Some (JNum 2386)
  /\ request_timeout req = timeout this.

Definition signed_event (this : TwoCaptchaClient) (e : Event) : Prop :=
  match e with
  | EHttp req _ => signed this req
  | _ => True
  end.

(** An exception that comes from a collaborator or from the runtime, not
    from a [throw new Error] of the client. *)
Definition not_thrown_by_client (e : JsError) : Prop :=
  match e with
  | Error _ => False
  | _ => True
  end.

(** The id that a submission brings back. *)
Definition handle (reply : IOResult string) : JsVal :=
  match reply with
  | Resolved body => second_field body
  | Rejected _ => JUndefined
  end.

(** The exchanges of one [decode...] call: none, or a submission and then
    only polls for the id that the submission brought back. *)
Definition submission_then_polls (this : TwoCaptchaClient)
    (xs : list (Request * IOResult string)) : Prop :=
  xs = []
  \/ exists args reply polls,
       xs = (api_request this "in" "post" args, reply) :: polls
       /\ Forall (fun x => fst x = api_request this "res" "get" (poll_args (handle reply)))
            polls.

(** A transport that rejects every request. *)
Definition transport_down (env : Env) (reason : string) : Prop :=
  forall w req, http_reply env w req = Rejected reason.

(** Collaborators that are all out of reach. *)
Definition unreachable : Env :=
  {| http_reply := fun _ _ => Rejected "ECONNREFUSED";
     data_url_reply := fun _ _ => Rejected "ENOTFOUND";
     read_file_reply := fun _ _ => Rejected "ENOENT";
     elapse := fun _ e => match e with ESleep ms => Z.max 1 ms | _ => 0 end |}.

(** An event that is not an API request. *)
Definition no_request (e : Event) : Prop :=
  match e with
  | EHttp _ _ => False
  | _ => True
  end.

(** An event that reads no file and fetches no URL. *)
Definition no_image_load (e : Event) : Prop :=
  match e with
  | EReadFile _ _ | EOpenDataURL _ _ => False
  | _ => True
  end.

(** One [decode...] call seen from the transport: its exchanges are a
    submission followed by polls for the id it brought back, and a Captcha
    that is returned bears that id. *)
Definition polls_for_its_submission (this : TwoCaptchaClient) (m : M Result) : Prop :=
  forall w, exists evs,
    trace (snd (m w)) = trace w ++ evs
    /\ submission_then_polls this (exchanges evs)
    /\ forall c, fst (m w) = Returned (Object c) ->
         exists args reply polls,
           exchanges evs = (api_request this "in" "post" args, reply) :: polls
           /\ Captcha.id c = handle reply.

(** A kind of events that holds the warnings, the timers and the client's
    own API requests. *)
Definition common (this : TwoCaptchaClient) (P : Event -> Prop) : Prop :=
  (forall m, P (EWarn m))
  /\ (forall ms, P (ESleep ms))
  /\ (forall action meth args reply, P (EHttp (api_request this action meth args) reply)).

(** The transport answers every poll with a remote error of message
    [message] that brings no text. *)
Definition always_failing (env : Env) (errors : gmap string string)
    (this : TwoCaptchaClient) (message : string) : Prop :=
  forall w captchaId, exists body,
    http_reply env w (api_request this "res" "get" (poll_args captchaId)) = Resolved body
    /\ response_message errors body = Some message
    /\ message <> NOT_SOLVED_YET
    /\ truthy (second_field body) = false.

(** The run of [m] from [w] goes on polling through [n] remote errors, each
    one logged, until the timeout makes it return undefined. *)
Definition gives_up_by_timeout (this : TwoCaptchaClient) (d D : Z) (message : string)
    (m : M Result) (w : World) : Prop :=
  exists n w',
    m w = (Returned Undefined, w')
    /\ (n <= Z.to_nat (timeout this / D))%nat
    /\ warnings (trace w') = warnings (trace w) ++ replicate n message ++ ["Captcha timeout"]
    /\ sleeps (trace w') = sleeps (trace w) ++ replicate (S n) d.

(** A service that accepts every submission and then reports the task as
    unsolvable, by a code that [sample_errors] does not list. *)
Definition never_solvable : Env :=
  {| http_reply := fun _ req =>
       if String.eqb (url req) "https://rucaptcha.com/in.php"
       then Resolved "OK|2122988149" else Resolved "ERROR_CAPTCHA_UNSOLVABLE";
     data_url_reply := fun _ _ => Rejected "ENOTFOUND";
     read_file_reply := fun _ _ => Rejected "ENOENT";
     elapse := fun _ e => match e with ESleep ms => Z.max 1 ms | _ => 0 end |}.

(** The arguments that the three interactive methods submit. *)
Definition recaptchaV2_fields (options : JsObject) : JsObject :=
  <["method" := JStr "userrecaptcha"]>
    (<["googlekey" := prop options "googlekey"]>
       (<["pageurl" := prop options "pageurl"]>
          (<["invisible" := flag (prop options "invisible")]>
             {[ "enterprise" := flag (prop options "enterprise") ]}))).

Definition recaptchaV3_fields (options : JsObject) : JsObject :=
  <["method" := JStr "userrecaptcha"]>
    (<["googlekey" := prop options "googlekey"]>
       (<["pageurl" := prop options "pageurl"]>
          (<["version" := JStr "v3"]>
             (<["action" := if truthy (prop options "action")
                            then prop options "action" else JStr ""]>
                {[ "enterprise" := flag (prop options "enterprise") ]})))).

Definition hcaptcha_fields (options : JsObject) : JsObject :=
  <["method" := JStr "hcaptcha"]>
    (<["sitekey" := prop options "sitekey"]>
       (<["pageurl" := prop options "pageurl"]>
          {[ "invisible" := flag (prop options "invisible") ]})).

(** The run of [m] from [w] first hands the transport a submission with
    exactly the arguments [args]. *)
Definition submits (this : TwoCaptchaClient) (args : JsObject) (m : M Result) (w : World)
    : Prop :=
  exists rest,
    requests (trace (snd (m w)))
    = requests (trace w) ++ api_request this "in" "post" args :: rest.

(** A query [m] that sends [req] hands the body back: when the transport
    resolves to [body], the query returns that very body, after the
    exchange alone when the validator reports nothing on it and after the
    exchange and one warning when it reports [message] to a client that
    does not throw; a throwing client raises [Error message] after the
    exchange. *)
Definition hands_back (env : Env) (errors : gmap string string)
    (this : TwoCaptchaClient) (req : Request) (m : M string)
    (w : World) (body : string) : Prop :=
  http_reply env w req = Resolved body ->
  ((forall message, ~ reported_error errors body message) ->
   m w = (Returned body, after env w (EHttp req (Resolved body))))
  /\ (forall message,
        reported_error errors body message ->
        m w = if throwErrors this
              then (Raised (Error message), after env w (EHttp req (Resolved body)))
              else (Returned body,
                    after env (after env w (EHttp req (Resolved body))) (EWarn message))).

(** ** The vocabulary of a run that ends with a solution *)

(** The service answers the polls of [captchaId] that start in [w] with
    [body] after [k] rounds without a solution: in each round, once the
    loop has slept [delay], the timeout counted from [startedAt] has not
    fired; in the first [k] rounds the transport resolves to a body on which
    the validator reports nothing and whose second field is empty or absent;
    in the round after them it resolves to the valid body [body], whose
    second field is not empty. *)
Fixpoint answers_after (env : Env) (errors : gmap string string)
    (this : TwoCaptchaClient) (delay startedAt : Z) (captchaId : JsVal)
    (k : nat) (w : World) (body : string) : Prop :=
  let w1 := after env w (ESleep delay) in
  let req := api_request this "res" "get" (poll_args captchaId) in
  now w1 - startedAt <= timeout this
  /\ match k with
     | O =>
         http_reply env w1 req = Resolved body
         /\ response_message errors body = None
         /\ truthy (second_field body) = true
     | S k' =>
         exists pending,
           http_reply env w1 req = Resolved pending
           /\ (forall message, ~ reported_error errors pending message)
           /\ truthy (second_field pending) = false
           /\ answers_after env errors this delay startedAt captchaId k'
                (after env w1 (EHttp req (Resolved pending))) body
     end.

(** The service accepts the submission of [args] made in [w] with the
    valid body [sub], and then answers the polls of the id in [sub] with
    [body] after [k] rounds without a solution, the timeout being counted
    from [startedAt]. *)
Definition solved_after (env : Env) (errors : gmap string string)
    (this : TwoCaptchaClient) (delay : Z) (args : JsObject) (startedAt : Z)
    (w : World) (sub : string) (k : nat) (body : string) : Prop :=
  let req := api_request this "in" "post" (upload_args args) in
  http_reply env w req = Resolved sub
  /\ response_message errors sub = None
  /\ answers_after env errors this delay startedAt (second_field sub) k
       (after env w (EHttp req (Resolved sub))) body.

(** Served in that way, the method [m], given fuel for more than [k]
    rounds, returns the Captcha of the submission's id whose response is
    [body] and whose text is the second field of [body]. *)
Definition returns_the_solution (env : Env) (errors : gmap string string)
    (this : TwoCaptchaClient) (delay : Z) (args : JsObject) (m : nat -> M Result)
    : Prop :=
  forall w sub k body fuel,
    solved_after env errors this delay args (now w) w sub k body ->
    (k < fuel)%nat ->
    fst (m fuel w)
    = Returned (Object (Captcha.mk (second_field sub) (JStr body) (second_field body))).

(** Served in that way, the method [m] sleeps [k + 1] times, each time
    with the argument [delay], and sleeps nowhere else; and when every timer
    set for [delay] takes [D] milliseconds at least, on a clock that never
    goes back, it returns [(k + 1) * D] milliseconds at least after its
    call. *)
Definition sleeps_every_round (env : Env) (errors : gmap string string)
    (this : TwoCaptchaClient) (delay : Z) (args : JsObject) (m : nat -> M Result)
    : Prop :=
  forall w sub k body fuel,
    solved_after env errors this delay args (now w) w sub k body ->
    (k < fuel)%nat ->
    sleeps (trace (snd (m fuel w))) = sleeps (trace w) ++ replicate (S k) delay
    /\ (clock_monotone env ->
        forall D, timer_at_least env delay D ->
                  now w + Z.of_nat (S k) * D <= now (snd (m fuel w))).

(** The run of [m] from [w] returns the Captcha of the id in [sub] that
    holds [body] and its second field, after [k + 1] sleeps of [delay] and
    no other, added to those of [w0], and not before the [k + 1] timers
    have run, counted from [w0]. *)
Definition solves_in (env : Env) (m : M Result) (w0 w : World)
    (sub body : string) (k : nat) (delay : Z) : Prop :=
  exists w',
    m w = (Returned (Object (Captcha.mk (second_field sub) (JStr body)
                               (second_field body))), w')
    /\ sleeps (trace w') = sleeps (trace w0) ++ replicate (S k) delay
    /\ (clock_monotone env ->
        forall D, timer_at_least env delay D ->
                  now w0 + Z.of_nat (S k) * D <= now w').
(** * Properties *)

(** ** Strings *)

Lemma starts_with_spec p s :
  starts_with p s = true <-> exists r, s = p +:+ r.
Proof.
  revert s. induction p as [|a p IH]; intros s; simpl.
  - split; [intros _; exists s; reflexivity | reflexivity].
  - destruct s as [|b s].
    + split; [discriminate | intros [r Hr]; discriminate].
    + rewrite andb_true_iff, Ascii.eqb_eq, IH. split.
      * intros [-> [r ->]]. exists r. reflexivity.
      * intros [r Hr]. injection Hr as -> ->. split; [reflexivity | exists r; reflexivity].
Qed.

Lemma includes_spec s needle :
  includes s needle = true <-> contains needle s.
Proof.
  unfold contains. induction s as [|c s IH]; simpl.
  - rewrite orb_false_r, starts_with_spec. split.
    + intros [r Hr]. exists "", r. exact Hr.
    + intros [a [b Hab]]. destruct a; [exists b; exact Hab | discriminate].
  - rewrite orb_true_iff, starts_with_spec, IH. split.
    + intros [[r Hr] | [a [b Hab]]].
      * exists "", r. exact Hr.
      * exists (String c a), b. simpl. rewrite Hab. reflexivity.
    + intros [a [b Hab]]. destruct a as [|c' a]; simpl in Hab.
      * left. exists b. exact Hab.
      * right. injection Hab as -> ->. exists a, b. reflexivity.
Qed.

Lemma includes_char_cons c s sep :
  includes (String c s) (String sep "") = false ->
  Ascii.eqb c sep = false /\ includes s (String sep "") = false.
Proof.
  simpl. rewrite orb_false_iff, andb_false_iff. intros [[H | H] Hs].
  - rewrite Ascii.eqb_sym. auto.
  - destruct s; discriminate.
Qed.

Lemma split_no_sep sep s :
  includes s (String sep "") = false -> split sep s = [s].
Proof.
  induction s as [|c s IH]; intros H; [reflexivity |].
  apply includes_char_cons in H as [Hc Hs]. simpl.
  rewrite Hc, (IH Hs). reflexivity.
Qed.

Lemma split_app_sep sep a s :
  includes a (String sep "") = false ->
  split sep (a +:+ String sep s) = a :: split sep s.
Proof.
  induction a as [|c a IH]; intros H; simpl.
  - rewrite Ascii.eqb_refl. reflexivity.
  - apply includes_char_cons in H as [Hc Ha]. rewrite Hc, (IH Ha). reflexivity.
Qed.

(** Without a delimiter there is no second field. *)
Lemma second_field_no_delimiter body :
  includes body "|" = false -> second_field body = JUndefined.
Proof.
  intros H. unfold second_field, split_limit. rewrite (split_no_sep _ _ H).
  reflexivity.
Qed.

(** [second_field] is the text between the first and the second [|]. *)
Lemma second_field_spec a b :
  includes a "|" = false -> includes b "|" = false ->
  second_field (a +:+ "|" +:+ b) = JStr b /\
  forall rest, second_field (a +:+ "|" +:+ b +:+ "|" +:+ rest) = JStr b.
Proof.
  intros Ha Hb. unfold second_field, split_limit. split.
  - change (a +:+ "|" +:+ b) with (a +:+ String "|"%char b).
    rewrite (split_app_sep _ _ _ Ha), (split_no_sep _ _ Hb). reflexivity.
  - intros rest.
    change (a +:+ "|" +:+ b +:+ "|" +:+ rest)
      with (a +:+ String "|"%char (b +:+ String "|"%char rest)).
    rewrite (split_app_sep _ _ _ Ha), (split_app_sep _ _ _ Hb). reflexivity.
Qed.

Lemma base64_empty bs : base64 bs = "" <-> bs = [].
Proof.
  split; [| intros ->; reflexivity].
  destruct bs as [|a [|b [|c rest]]]; simpl; [reflexivity | discriminate ..].
Qed.

Example base64_Man : base64 [x4d; x61; x6e] = "TWFu".
Proof. reflexivity. Qed.

Example base64_Ma : base64 [x4d; x61] = "TWE=".
Proof. reflexivity. Qed.

Example base64_M : base64 [x4d] = "TQ==".
Proof. reflexivity. Qed.

Lemma truthy_base64 bs : bs <> [] -> truthy (JStr (base64 bs)) = true.
Proof.
  intros H. simpl. apply negb_true_iff, String.eqb_neq.
  intros E. apply H, base64_empty, E.
Qed.

(** ** The shared response validator *)

Section Validator.

Variable env : Env.
Variable errors : gmap string string.

Lemma response_message_known body message :
  errors !! body = Some message -> message <> "" ->
  response_message errors body = Some message.
Proof.
  intros H Hne. unfold response_message, errors_at. rewrite H. simpl.
  apply String.eqb_neq in Hne. rewrite Hne. reflexivity.
Qed.

(** An inherited member has a name that is not empty and holds no ERROR,
    and a text that is neither empty nor the "not solved yet" message. *)
Lemma object_prototype_member_Some body text :
  object_prototype_member body = Some text ->
  String.eqb body "" || includes body "ERROR" = false
  /\ truthy (JStr text) = true
  /\ text <> NOT_SOLVED_YET.
Proof.
  unfold object_prototype_member, object_prototype_functions. simpl existsb.
  repeat match goal with
         | |- context [String.eqb body ?s] =>
             let E := fresh "E" in
             destruct (String.eqb body s) eqn:E;
             [apply String.eqb_eq in E; subst body; simpl;
              intros H;
              first [discriminate H
                    | injection H as <-;
                      repeat split; try reflexivity;
                      unfold NOT_SOLVED_YET; discriminate] |]
         end.
  simpl. discriminate.
Qed.

Lemma response_message_unlisted body :
  errors !! body = None -> object_prototype_member body = None ->
  response_message errors body =
    if String.eqb body "" || includes body "ERROR"
    then Some ("Unknown 2Captcha error: " +:+ body) else None.
Proof.
  intros H Hm. unfold response_message, errors_at. rewrite H, Hm. reflexivity.
Qed.

Lemma response_message_member body text :
  errors !! body = None -> object_prototype_member body = Some text ->
  response_message errors body = Some text.
Proof.
  intros H Hm. unfold response_message, errors_at. rewrite H, Hm.
  destruct (object_prototype_member_Some _ _ Hm) as [_ [-> _]]. reflexivity.
Qed.

Lemma taxonomy_message_reported body message :
  taxonomy_message errors body = Some message ->
  response_message errors body = Some message.
Proof.
  unfold taxonomy_message, response_message, errors_at.
  destruct (errors !! body) as [m|] eqn:E.
  - destruct (truthy (JStr m)); auto.
  - destruct (object_prototype_member body) as [text|] eqn:Hm; [| auto].
    destruct (object_prototype_member_Some _ _ Hm) as [-> _]. discriminate.
Qed.

Lemma remote_error_reported body message :
  remote_error errors body message -> reported_error errors body message.
Proof.
  intros [H Hn]. split; [apply taxonomy_message_reported, H | exact Hn].
Qed.

Lemma unknown_condition body :
  String.eqb body "" || includes body "ERROR" = true <->
  body = "" \/ contains "ERROR" body.
Proof. rewrite orb_true_iff, String.eqb_eq, includes_spec. reflexivity. Qed.

Lemma classified_functional body c c' :
  classified errors body c -> classified errors body c' -> c' = c.
Proof.
  intros H H'. destruct H, H'; try congruence; tauto.
Qed.

Lemma throwError_not_solved_yet this w :
  _throwError env this NOT_SOLVED_YET w = (Returned (JBool false), w).
Proof. reflexivity. Qed.

Lemma throwError_throw this message w :
  message <> NOT_SOLVED_YET -> throwErrors this = true ->
  _throwError env this message w = (Raised (Error message), w).
Proof.
  intros Hm Ht. unfold _throwError. apply String.eqb_neq in Hm.
  rewrite Hm, Ht. reflexivity.
Qed.

Lemma throwError_warn this message w :
  message <> NOT_SOLVED_YET -> throwErrors this = false ->
  _throwError env this message w = (Returned (JBool false), after env w (EWarn message)).
Proof.
  intros Hm Ht. unfold _throwError. apply String.eqb_neq in Hm.
  rewrite Hm, Ht. reflexivity.
Qed.

Lemma validateResponse_valid this body w :
  response_message errors body = None ->
  _validateResponse env errors this body w = (Returned (JBool true), w).
Proof. intros H. unfold _validateResponse. rewrite H. reflexivity. Qed.

Lemma validateResponse_message this body message :
  response_message errors body = Some message ->
  _validateResponse env errors this body = _throwError env this message.
Proof. intros H. unfold _validateResponse. rewrite H. reflexivity. Qed.

(** [_request] when the transport resolves to [body]: the validator runs
    on [body] in the world after the call, and [body] is returned as it
    is unless the validator raises. *)
Lemma request_resolved this action meth args w body :
  http_reply env w (api_request this action meth args) = Resolved body ->
  _request env errors this action meth args w =
    (_validateResponse env errors this body ;; ret body)
      (after env w (EHttp (api_request this action meth args) (Resolved body))).
Proof.
  intros H. unfold _request, HTTPRequest_request, bind at 1 2, happen. simpl.
  rewrite H. reflexivity.
Qed.

Lemma request_valid this action meth args w body :
  http_reply env w (api_request this action meth args) = Resolved body ->
  response_message errors body = None ->
  _request env errors this action meth args w =
    (Returned body,
     after env w (EHttp (api_request this action meth args) (Resolved body))).
Proof.
  intros H Hv. rewrite (request_resolved _ _ _ _ _ _ H). unfold bind.
  rewrite (validateResponse_valid _ _ _ Hv). reflexivity.
Qed.

(** On every body that is not the name of a member of [Object.prototype],
    the validator follows the taxonomy: a known code is handed to
    [_throwError] with the table's message, an unlisted body that is empty
    or contains ERROR as an unknown error that carries the body, and any
    other body is valid: the validator returns true without any effect
    and [_request] returns the body as it is. *)
Lemma validateResponse_follows_taxonomy this body :
  object_prototype_member body = None ->
  messages_nonempty errors ->
  exists c,
    classified errors body c /\
    (forall c', classified errors body c' -> c' = c) /\
    _validateResponse env errors this body = handled env this c /\
    (c = Valid ->
     forall w action meth args,
       http_reply env w (api_request this action meth args) = Resolved body ->
       _request env errors this action meth args w =
         (Returned body,
          after env w (EHttp (api_request this action meth args) (Resolved body)))).
Proof.
  intros Hown Hne. destruct (errors !! body) as [message|] eqn:E.
  - exists (RemoteError body message).
    assert (Hc : classified errors body (RemoteError body message))
      by (constructor; exact E).
    split; [exact Hc |]. split; [intros c'; apply classified_functional, Hc |].
    split; [| discriminate].
    apply validateResponse_message, response_message_known; [exact E |].
    exact (Hne _ _ E).
  - pose proof (response_message_unlisted body E Hown) as Hm.
    pose proof (unknown_condition body) as Hu.
    destruct (String.eqb body "" || includes body "ERROR") eqn:C.
    + exists (UnknownRemoteError body).
      assert (Hc : classified errors body (UnknownRemoteError body))
        by (constructor; [exact E | apply Hu; reflexivity]).
      split; [exact Hc |]. split; [intros c'; apply classified_functional, Hc |].
      split; [| discriminate].
      apply validateResponse_message, Hm.
    + exists Valid.
      assert (Hc : classified errors body Valid).
      { constructor; [exact E | |]; intros H;
          assert (false = true) by (apply Hu; auto); discriminate. }
      split; [exact Hc |]. split; [intros c'; apply classified_functional, Hc |].
      split.
      * unfold _validateResponse. rewrite Hm. reflexivity.
      * intros _ w action meth args Hr. apply request_valid; assumption.
Qed.

Lemma captcha_resolved this captchaId w body :
  http_reply env w (api_request this "res" "get" (poll_args captchaId)) = Resolved body ->
  captcha env errors this captchaId w =
    (_validateResponse env errors this body ;;
     ret (Captcha.mk captchaId (JStr body) (second_field body)))
      (after env w (EHttp (api_request this "res" "get" (poll_args captchaId))
                      (Resolved body))).
Proof.
  intros H. unfold captcha. unfold bind at 1.
  rewrite (request_resolved _ _ _ _ _ _ H). unfold bind.
  destruct (_validateResponse _ _ _ _ _) as [[v| |] w']; reflexivity.
Qed.

Lemma upload_resolved this options w body :
  http_reply env w (api_request this "in" "post" (upload_args options)) = Resolved body ->
  _upload env errors this options w =
    (_validateResponse env errors this body ;;
     _validateResponse env errors this body ;;
     ret (Captcha.mk (second_field body) JUndefined JUndefined))
      (after env w (EHttp (api_request this "in" "post" (upload_args options))
                      (Resolved body))).
Proof.
  intros H. unfold _upload. unfold bind at 1.
  rewrite (request_resolved _ _ _ _ _ _ H). unfold bind.
  destruct (_validateResponse _ _ _ _ _) as [[v| |] w']; reflexivity.
Qed.

Lemma captcha_pending this captchaId w body :
  http_reply env w (api_request this "res" "get" (poll_args captchaId)) = Resolved body ->
  errors !! body = Some NOT_SOLVED_YET ->
  captcha env errors this captchaId w =
    (Returned (Captcha.mk captchaId (JStr body) (second_field body)),
     after env w (EHttp (api_request this "res" "get" (poll_args captchaId))
                     (Resolved body))).
Proof.
  intros Hr He. rewrite (captcha_resolved _ _ _ _ Hr). unfold bind.
  rewrite (validateResponse_message this body NOT_SOLVED_YET).
  - rewrite throwError_not_solved_yet. reflexivity.
  - apply response_message_known; [exact He | discriminate].
Qed.

(** C2: a poll that receives the "not solved yet" body returns normally,
    whatever [throwErrors] is: nothing is raised and nothing is logged;
    the Captcha it returns carries the body, and without a delimiter in the
    body its text is absent, which is the condition under which the
    polling loop goes on. *)
Theorem captcha_not_solved_yet this captchaId w body :
  http_reply env w (api_request this "res" "get" (poll_args captchaId)) = Resolved body ->
  errors !! body = Some NOT_SOLVED_YET ->
  captcha env errors this captchaId w =
    (Returned (Captcha.mk captchaId (JStr body) (second_field body)),
     after env w (EHttp (api_request this "res" "get" (poll_args captchaId))
                     (Resolved body)))
  /\ (includes body "|" = false ->
      negb (truthy (Captcha.text (Captcha.mk captchaId (JStr body) (second_field body))))
      = true).
Proof.
  intros Hr He. split.
  - apply captcha_pending; assumption.
  - intros Hd. simpl. rewrite (second_field_no_delimiter _ Hd). reflexivity.
Qed.

(** C10: for a valid body without the delimiter, [_upload] returns a
    Captcha whose id is undefined and [captcha] returns one whose text is
    undefined; neither raises. *)
Theorem second_field_absent this body w :
  response_message errors body = None ->
  includes body "|" = false ->
  (forall options,
      http_reply env w (api_request this "in" "post" (upload_args options))
      = Resolved body ->
      _upload env errors this options w =
        (Returned (Captcha.mk JUndefined JUndefined JUndefined),
         after env w (EHttp (api_request this "in" "post" (upload_args options))
                         (Resolved body))))
  /\ (forall captchaId,
      http_reply env w (api_request this "res" "get" (poll_args captchaId))
      = Resolved body ->
      captcha env errors this captchaId w =
        (Returned (Captcha.mk captchaId (JStr body) JUndefined),
         after env w (EHttp (api_request this "res" "get" (poll_args captchaId))
                         (Resolved body)))).
Proof.
  intros Hv Hd. split.
  - intros options Hr. rewrite (upload_resolved _ _ _ _ Hr). unfold bind.
    rewrite !(validateResponse_valid _ _ _ Hv), (second_field_no_delimiter _ Hd).
    reflexivity.
  - intros captchaId Hr. rewrite (captcha_resolved _ _ _ _ Hr). unfold bind.
    rewrite (validateResponse_valid _ _ _ Hv), (second_field_no_delimiter _ Hd).
    reflexivity.
Qed.

(** What the validator does, by cases on the body and [throwErrors]. *)
Lemma validateResponse_reported this body message w :
  reported_error errors body message ->
  _validateResponse env errors this body w =
    if throwErrors this then (Raised (Error message), w)
    else (Returned (JBool false), after env w (EWarn message)).
Proof.
  intros [Hm Hn]. rewrite (validateResponse_message _ _ _ Hm).
  destruct (throwErrors this) eqn:Ht.
  - apply throwError_throw; assumption.
  - apply throwError_warn; assumption.
Qed.

Lemma validateResponse_remote_error this body message w :
  remote_error errors body message ->
  _validateResponse env errors this body w =
    if throwErrors this then (Raised (Error message), w)
    else (Returned (JBool false), after env w (EWarn message)).
Proof.
  intros H. apply validateResponse_reported, remote_error_reported, H.
Qed.

Lemma reported_error_cases body :
  (exists message, reported_error errors body message)
  \/ (forall message, ~ reported_error errors body message).
Proof.
  destruct (response_message errors body) as [m|] eqn:Hm.
  - destruct (String.eqb m NOT_SOLVED_YET) eqn:E.
    + right. intros message [H1 H2]. apply String.eqb_eq in E. congruence.
    + left. exists m. split; [exact Hm | apply String.eqb_neq, E].
  - right. intros message [H1 _]. congruence.
Qed.

(** C9: the taxonomy does not hold of the body that names a member of
    [Object.prototype] ([constructor], [toString], [__proto__], ...) and
    is no code of the table.  Such a body has no own entry in the table,
    is not empty and does not contain ERROR, so the taxonomy classifies it
    as valid; but [constants.errors[body]] finds the inherited member,
    which is truthy, and the validator hands it to [_throwError]: a
    throwing client raises an [Error] that carries the member, a
    non-throwing one logs it and returns false, and [_request] raises in
    throw mode instead of returning the body. *)
Theorem inherited_member_is_reported this body text w :
  errors !! body = None ->
  object_prototype_member body = Some text ->
  classified errors body Valid
  /\ _validateResponse env errors this body w
     = (if throwErrors this then (Raised (Error text), w)
        else (Returned (JBool false), after env w (EWarn text)))
  /\ _validateResponse env errors this body w <> handled env this Valid w
  /\ (forall action meth args,
        http_reply env w (api_request this action meth args) = Resolved body ->
        throwErrors this = true ->
        fst (_request env errors this action meth args w) = Raised (Error text)).
Proof.
  intros E Hm.
  destruct (object_prototype_member_Some _ _ Hm) as [C [_ Hn]].
  pose proof (unknown_condition body) as Hu.
  assert (Hv : _validateResponse env errors this body w
               = (if throwErrors this then (Raised (Error text), w)
                  else (Returned (JBool false), after env w (EWarn text)))).
  { apply validateResponse_reported. split; [| exact Hn].
    apply response_message_member; assumption. }
  split; [| split; [exact Hv | split]].
  - constructor; [exact E | |]; intros H;
      assert (false = true) by (rewrite <- C; apply Hu; auto); discriminate.
  - rewrite Hv. simpl. destruct (throwErrors this); discriminate.
  - intros action meth args Hr Ht.
    rewrite (request_resolved _ _ _ _ _ _ Hr). unfold bind.
    set (w1 := after env w _).
    assert (Hv1 : _validateResponse env errors this body w1
                  = (Raised (Error text), w1)).
    { rewrite (validateResponse_reported this body text w1), Ht; [reflexivity |].
      split; [| exact Hn]. apply response_message_member; assumption. }
    rewrite Hv1. reflexivity.
Qed.

Lemma validateResponse_no_reported this body w :
  (forall message, ~ reported_error errors body message) ->
  exists v, _validateResponse env errors this body w = (Returned v, w).
Proof.
  intros Hno. unfold _validateResponse.
  destruct (response_message errors body) as [message|] eqn:Hm.
  - destruct (String.eqb message NOT_SOLVED_YET) eqn:E.
    + apply String.eqb_eq in E. subst message. eexists. reflexivity.
    + apply String.eqb_neq in E. destruct (Hno message). split; assumption.
  - eexists. reflexivity.
Qed.

(** The message of a remote error is the table's message for the body, or
    the unknown-error text followed by the body. *)
Lemma remote_error_carries body message :
  remote_error errors body message ->
  errors !! body = Some message \/ message = "Unknown 2Captcha error: " +:+ body.
Proof.
  intros [Hm _]. unfold taxonomy_message in Hm.
  destruct (errors !! body) as [m|].
  - destruct (truthy (JStr m)); [left; exact Hm |].
    destruct (String.eqb body "" || includes body "ERROR"); [right | discriminate].
    congruence.
  - destruct (String.eqb body "" || includes body "ERROR"); [right | discriminate].
    congruence.
Qed.

Lemma report_resolved this captchaId bad w body :
  http_reply env w (api_request this "res" "get" (report_args captchaId bad))
  = Resolved body ->
  report env errors this captchaId bad w =
    (_validateResponse env errors this body ;;
     ret (String.eqb body OK_REPORT_RECORDED))
      (after env w (EHttp (api_request this "res" "get" (report_args captchaId bad))
                      (Resolved body))).
Proof.
  intros H. unfold report. unfold bind at 1.
  rewrite (request_resolved _ _ _ _ _ _ H). unfold bind.
  destruct (_validateResponse _ _ _ _ _) as [[v| |] w']; reflexivity.
Qed.

(** C8 (amended): [report] runs the validator on the body first.  When
    [throwErrors] is set and the body is a remote error, the validator's
    error is raised; when [throwErrors] is unset, or the validator reports
    nothing on the body, [report] returns whether the body is exactly
    [OK_REPORT_RECORDED]. *)
Theorem report_outcome this captchaId bad w body :
  http_reply env w (api_request this "res" "get" (report_args captchaId bad))
  = Resolved body ->
  (forall message,
      remote_error errors body message -> throwErrors this = true ->
      fst (report env errors this captchaId bad w) = Raised (Error message))
  /\ (throwErrors this = false
      \/ (forall message, ~ reported_error errors body message) ->
      fst (report env errors this captchaId bad w)
      = Returned (String.eqb body OK_REPORT_RECORDED))
  /\ (fst (report env errors this captchaId bad w) = Returned true ->
      body = OK_REPORT_RECORDED).
Proof.
  intros Hr. rewrite (report_resolved _ _ _ _ _ Hr).
  set (w1 := after env w _). unfold bind.
  split; [| split].
  - intros message He Ht. rewrite (validateResponse_remote_error _ _ _ _ He), Ht.
    reflexivity.
  - intros [Ht | Hno].
    + destruct (reported_error_cases body) as [[message He] | Hno].
      * rewrite (validateResponse_reported _ _ _ _ He), Ht. reflexivity.
      * destruct (validateResponse_no_reported this body w1 Hno) as [v ->].
        reflexivity.
    + destruct (validateResponse_no_reported this body w1 Hno) as [v ->].
      reflexivity.
  - destruct (_validateResponse env errors this body w1) as [[v| |] w']; simpl;
      try discriminate.
    intros H. injection H as H. apply String.eqb_eq, H.
Qed.

(** C3 (amended): on a submit whose body is a remote error with message
    [message] (the table's message, or the unknown-error text with the
    body), a throwing client raises [Error message]; a non-throwing client
    raises nothing: the validator logs [message] and returns false, and
    [_upload] still returns a Captcha object, whose id is the second field
    of the body. *)
Theorem upload_remote_error this options w body message :
  http_reply env w (api_request this "in" "post" (upload_args options))
  = Resolved body ->
  remote_error errors body message ->
  let w1 := after env w (EHttp (api_request this "in" "post" (upload_args options))
                           (Resolved body)) in
  (errors !! body = Some message \/ message = "Unknown 2Captcha error: " +:+ body)
  /\ (throwErrors this = true ->
      _validateResponse env errors this body w1 = (Raised (Error message), w1)
      /\ _upload env errors this options w = (Raised (Error message), w1))
  /\ (throwErrors this = false ->
      _validateResponse env errors this body w1
      = (Returned (JBool false), after env w1 (EWarn message))
      /\ _upload env errors this options w
         = (Returned (Captcha.mk (second_field body) JUndefined JUndefined),
            after env (after env w1 (EWarn message)) (EWarn message))).
Proof.
  intros Hr He w1. split; [exact (remote_error_carries _ _ He) |].
  split; intros Ht.
  - split.
    + rewrite (validateResponse_remote_error _ _ _ _ He), Ht. reflexivity.
    + rewrite (upload_resolved _ _ _ _ Hr). fold w1. unfold bind.
      rewrite (validateResponse_remote_error _ _ _ _ He), Ht. reflexivity.
  - split.
    + rewrite (validateResponse_remote_error _ _ _ _ He), Ht. reflexivity.
    + rewrite (upload_resolved _ _ _ _ Hr). fold w1. unfold bind.
      rewrite (validateResponse_remote_error _ _ _ _ He), Ht.
      rewrite (validateResponse_remote_error _ _ _ _ He), Ht. reflexivity.
Qed.

End Validator.

(** ** Traces of the methods *)

Section Traces.

Variable env : Env.
Variable errors : gmap string string.

Lemma trace_after w e : trace (after env w e) = trace w ++ [e].
Proof. reflexivity. Qed.

Lemma throwError_trace this message w :
  exists ws, trace (snd (_throwError env this message w)) = trace w ++ map EWarn ws.
Proof.
  unfold _throwError. destruct (String.eqb message NOT_SOLVED_YET).
  - exists []. simpl. rewrite app_nil_r. reflexivity.
  - destruct (throwErrors this).
    + exists []. simpl. rewrite app_nil_r. reflexivity.
    + exists [message]. reflexivity.
Qed.

Lemma validateResponse_trace this body w :
  exists ws,
    trace (snd (_validateResponse env errors this body w)) = trace w ++ map EWarn ws.
Proof.
  unfold _validateResponse. destruct (response_message errors body).
  - apply throwError_trace.
  - exists []. simpl. rewrite app_nil_r. reflexivity.
Qed.

Lemma request_trace this action meth args w :
  exists ws,
    trace (snd (_request env errors this action meth args w)) =
      trace w ++ EHttp (api_request this action meth args)
                   (http_reply env w (api_request this action meth args))
              :: map EWarn ws.
Proof.
  destruct (http_reply env w (api_request this action meth args)) as [body|r] eqn:Hr.
  - rewrite (request_resolved _ _ _ _ _ _ _ _ Hr). unfold bind.
    destruct (validateResponse_trace this body
                (after env w (EHttp (api_request this action meth args) (Resolved body))))
      as [ws Hws].
    exists ws. rewrite trace_after, <- app_assoc in Hws.
    destruct (_validateResponse _ _ _ _ _) as [[v| |] w']; exact Hws.
  - exists []. unfold _request, HTTPRequest_request, bind, happen, await. simpl.
    rewrite Hr. reflexivity.
Qed.

Lemma captcha_trace this captchaId w :
  exists ws,
    trace (snd (captcha env errors this captchaId w)) =
      trace w ++ EHttp (api_request this "res" "get" (poll_args captchaId))
                   (http_reply env w (api_request this "res" "get" (poll_args captchaId)))
              :: map EWarn ws.
Proof.
  destruct (request_trace this "res" "get" (poll_args captchaId) w) as [ws Hws].
  exists ws. unfold captcha, bind.
  destruct (_request _ _ _ _ _ _ _) as [[v| |] w']; exact Hws.
Qed.

Lemma upload_trace this options w :
  exists ws,
    trace (snd (_upload env errors this options w)) =
      trace w ++ EHttp (api_request this "in" "post" (upload_args options))
                   (http_reply env w (api_request this "in" "post" (upload_args options)))
              :: map EWarn ws.
Proof.
  destruct (request_trace this "in" "post" (upload_args options) w) as [ws Hws].
  unfold _upload, bind.
  destruct (_request _ _ _ _ _ _ _) as [[v| |] w'] eqn:E;
    [| exists ws; exact Hws ..].
  destruct (validateResponse_trace this v w') as [ws' Hws'].
  exists (ws ++ ws'). simpl in Hws.
  destruct (_validateResponse _ _ _ _ _) as [[v'| |] w'']; simpl in *;
    rewrite Hws', Hws, <- app_assoc, map_app; reflexivity.
Qed.

(** Whatever the replies and however the loop ends, it adds rounds of one
    sleep of [delay] and one poll. *)
Lemma poll_loop_trace fuel this delay startedAt :
  forall decodedCaptcha w,
  exists evs,
    trace (snd (poll_loop env errors fuel this delay startedAt decodedCaptcha w))
    = trace w ++ evs
    /\ polling_trace delay evs.
Proof.
  induction fuel as [|fuel IH]; intros c w; simpl.
  - exists []. rewrite app_nil_r.
    destruct (negb (truthy (Captcha.text c))); split; constructor.
  - destruct (negb (truthy (Captcha.text c)));
      [| exists []; rewrite app_nil_r; split; constructor].
    unfold bind at 1. unfold _sleep, happen.
    unfold bind at 1. unfold Date_now.
    set (w1 := after env w (ESleep delay)).
    destruct (now w1 - startedAt >? timeout this).
    + destruct (throwError_trace this "Captcha timeout" w1) as [ws Hws].
      exists (ESleep delay :: map EWarn ws). split; [| constructor].
      unfold bind.
      change (trace w1) with (trace w ++ [ESleep delay]) in Hws.
      rewrite <- app_assoc in Hws.
      destruct (_throwError _ _ _ _) as [[v| |] w']; exact Hws.
    + destruct (captcha_trace this (Captcha.id c) w1) as [ws Hws].
      change (trace w1) with (trace w ++ [ESleep delay]) in Hws.
      rewrite <- app_assoc in Hws. simpl in Hws.
      unfold bind.
      destruct (captcha _ _ _ _ _) as [[c'| |] w2] eqn:E; simpl in Hws.
      * destruct (IH c' w2) as [evs [Hevs Hp]].
        exists (ESleep delay :: EHttp (api_request this "res" "get" (poll_args (Captcha.id c)))
                  (http_reply env w1 (api_request this "res" "get" (poll_args (Captcha.id c))))
                  :: map EWarn ws ++ evs).
        split; [| constructor; exact Hp].
        rewrite Hevs, Hws, <- app_assoc. reflexivity.
      * eexists. split; [simpl; rewrite Hws; reflexivity |].
        rewrite <- (app_nil_r (map EWarn ws)). constructor. constructor.
      * eexists. split; [simpl; rewrite Hws; reflexivity |].
        rewrite <- (app_nil_r (map EWarn ws)). constructor. constructor.
Qed.

Lemma polling_trace_sleeps d evs :
  polling_trace d evs -> Forall (fun ms => ms = d) (sleeps evs).
Proof.
  assert (Hw : forall ws, sleeps (map EWarn ws) = [])
    by (induction ws; simpl; auto).
  induction 1; simpl.
  - constructor.
  - unfold sleeps in *. simpl. rewrite Hw. repeat constructor.
  - unfold sleeps in *. simpl. rewrite omap_app, Hw. simpl.
    constructor; [reflexivity | assumption].
Qed.

Lemma sleeps_app a b : sleeps (a ++ b) = sleeps a ++ sleeps b.
Proof. apply omap_app. Qed.

Lemma sleeps_warnings ws : sleeps (map EWarn ws) = [].
Proof. induction ws; simpl; auto. Qed.

Lemma sleepless_ret {A} (a : A) : sleepless (ret a).
Proof. intros w. exists []. simpl. rewrite app_nil_r. auto. Qed.

Lemma sleepless_Date_now : sleepless Date_now.
Proof. intros w. exists []. simpl. rewrite app_nil_r. auto. Qed.

Lemma sleepless_bind {A B} (m : M A) (k : A -> M B) :
  sleepless m -> (forall a, sleepless (k a)) -> sleepless (bind m k).
Proof.
  intros Hm Hk w. unfold bind. destruct (Hm w) as [pre [H1 H2]].
  destruct (m w) as [[a| |] w']; simpl in *; [| exists pre; auto ..].
  destruct (Hk a w') as [pre' [H1' H2']]. exists (pre ++ pre').
  rewrite H1', H1, <- app_assoc, sleeps_app, H2, H2'. auto.
Qed.

Lemma sleepless_throwError this message : sleepless (_throwError env this message).
Proof.
  intros w. destruct (throwError_trace this message w) as [ws Hws].
  exists (map EWarn ws). split; [exact Hws | apply sleeps_warnings].
Qed.

Lemma sleepless_when {A} b (m : M A) : sleepless m -> sleepless (when b m).
Proof.
  intros Hm. unfold when. destruct b; [| apply sleepless_ret].
  apply sleepless_bind; [exact Hm | intros; apply sleepless_ret].
Qed.

Lemma sleepless_upload this options : sleepless (_upload env errors this options).
Proof.
  intros w. destruct (upload_trace this options w) as [ws Hws].
  eexists. split; [exact Hws |]. unfold sleeps. simpl. apply sleeps_warnings.
Qed.

Lemma sleepless_toString_base64 v : sleepless (toString_base64 v).
Proof.
  intros w. exists []. rewrite app_nil_r. destruct v; simpl; auto.
Qed.

Lemma sleepless_readFileAsync path : sleepless (readFileAsync env path).
Proof.
  intros w. exists [EReadFile path (read_file_reply env w path)].
  unfold readFileAsync, bind, happen, await. simpl.
  destruct (read_file_reply env w path); auto.
Qed.

Lemma sleepless_openDataURL target : sleepless (HTTPRequest_openDataURL env target).
Proof.
  intros w. exists [EOpenDataURL target (data_url_reply env w target)].
  unfold HTTPRequest_openDataURL, bind, happen, await. simpl.
  destruct (data_url_reply env w target); auto.
Qed.

Lemma sleepless_loadCaptcha this options : sleepless (_loadCaptcha env this options).
Proof.
  unfold _loadCaptcha.
  destruct (truthy (prop options "base64")); [apply sleepless_ret |].
  destruct (truthy (prop options "buffer")); [apply sleepless_toString_base64 |].
  destruct (truthy (prop options "path")).
  { apply sleepless_bind; [apply sleepless_readFileAsync |].
    intros; apply sleepless_toString_base64. }
  destruct (truthy (prop options "url")).
  { apply sleepless_bind; [apply sleepless_openDataURL |].
    intros; apply sleepless_toString_base64. }
  apply sleepless_bind; [apply sleepless_throwError | intros; apply sleepless_ret].
Qed.

Lemma polls_with_poll_loop fuel this delay startedAt decodedCaptcha :
  polls_with delay (poll_loop env errors fuel this delay startedAt decodedCaptcha).
Proof.
  intros w. destruct (poll_loop_trace fuel this delay startedAt decodedCaptcha w)
    as [evs [H1 H2]].
  exists [], evs. simpl. repeat split; auto. apply polling_trace_sleeps, H2.
Qed.

Lemma polls_with_bind {A} d (m : M A) (k : A -> M Result) :
  sleepless m -> (forall a, polls_with d (k a)) -> polls_with d (bind m k).
Proof.
  intros Hm Hk w. unfold bind. destruct (Hm w) as [pre [H1 H2]].
  destruct (m w) as [[a| |] w']; simpl in *.
  - destruct (Hk a w') as [pre' [evs [H1' [H2' [H3' H4']]]]].
    exists (pre ++ pre'), evs. rewrite H1', H1, <- !app_assoc.
    rewrite sleeps_app, H2, H2'. repeat split; auto.
    rewrite sleeps_app, H2. exact H4'.
  - exists pre, []. rewrite !app_nil_r, H2. repeat split; auto; constructor.
  - exists pre, []. rewrite !app_nil_r, H2. repeat split; auto; constructor.
Qed.


End Traces.

(** ** The timeout of the polling loop *)

Section Timeout.

Variable env : Env.
Variable errors : gmap string string.
Variable this : TwoCaptchaClient.

Hypothesis Hclock : clock_monotone env.
Hypothesis Hpending : always_pending env errors this.

Lemma timeout_fires w :
  _throwError env this "Captcha timeout" w
  = (match timeout_outcome this with
     | Raised e => Raised e
     | _ => Returned (JBool false)
     end,
     {| now := now w + (if throwErrors this then 0 else elapse env w (EWarn "Captcha timeout"));
        trace := trace w ++ timeout_events this |}).
Proof.
  unfold _throwError, timeout_outcome, timeout_events. simpl.
  destruct (throwErrors this); simpl.
  - rewrite Z.add_0_r, app_nil_r. destruct w; reflexivity.
  - reflexivity.
Qed.

Lemma rounds_bound T e e2 D f :
  1 <= D -> e + D <= e2 -> e + D <= T ->
  (Z.to_nat ((T - e) / D) < S f)%nat ->
  (S (Z.to_nat ((T - e2) / D)) <= Z.to_nat ((T - e) / D))%nat
  /\ (Z.to_nat ((T - e2) / D) < f)%nat.
Proof.
  intros HD He2 HT Hf.
  assert (H1 : (T - e2) / D <= (T - e - D) / D)
    by (apply Z.div_le_mono; lia).
  assert (H2 : (T - e - D) / D = (T - e) / D - 1).
  { replace (T - e - D) with ((T - e) + (-1) * D) by lia.
    rewrite Z.div_add by lia. lia. }
  assert (H3 : 1 <= (T - e) / D).
  { apply Z.div_le_lower_bound; lia. }
  lia.
Qed.

(** From any world and any Captcha without a text, the loop ends by the
    timeout after at most [(timeout - elapsed) / D] polls, when a timer set
    for [delay] takes [D >= 1] milliseconds at least. *)
Lemma poll_loop_times_out delay D startedAt :
  1 <= D -> timer_at_least env delay D ->
  forall fuel decodedCaptcha w,
    truthy (Captcha.text decodedCaptcha) = false ->
    (Z.to_nat ((timeout this - (now w - startedAt)) / D) < fuel)%nat ->
    exists bodies w',
      (length bodies <= Z.to_nat ((timeout this - (now w - startedAt)) / D))%nat
      /\ poll_loop env errors fuel this delay startedAt decodedCaptcha w
         = (timeout_outcome this, w')
      /\ trace w' =
           trace w
           ++ concat (map (round delay (api_request this "res" "get"
                                          (poll_args (Captcha.id decodedCaptcha))))
                        bodies)
           ++ ESleep delay :: timeout_events this
      /\ timeout this < now w' - startedAt.
Proof.
  intros HD Htimer.
  induction fuel as [|fuel IH]; intros c w Htext Hfuel; [lia |].
  simpl. rewrite Htext. simpl.
  unfold bind at 1. unfold _sleep, happen.
  unfold bind at 1. unfold Date_now.
  set (w1 := after env w (ESleep delay)).
  assert (Hw1 : now w + D <= now w1) by (simpl; specialize (Htimer w); lia).
  destruct (now w1 - startedAt >? timeout this) eqn:Hcheck.
  - apply Z.gtb_lt in Hcheck.
    exists [], {| now := now w1 + (if throwErrors this then 0
                                    else elapse env w1 (EWarn "Captcha timeout"));
                  trace := trace w1 ++ timeout_events this |}.
    split; [simpl; lia |]. split; [| split].
    + unfold bind. rewrite timeout_fires. unfold timeout_outcome.
      destruct (throwErrors this); reflexivity.
    + simpl. rewrite <- app_assoc. reflexivity.
    + simpl. pose proof (Hclock w1 (EWarn "Captcha timeout")).
      simpl in Hcheck. destruct (throwErrors this); lia.
  - assert (Hle : now w1 - startedAt <= timeout this).
    { destruct (Z.gtb_spec (now w1 - startedAt) (timeout this)); [discriminate | lia]. }
    destruct (Hpending w1 (Captcha.id c)) as [body [Hr [He Hf]]].
    unfold bind at 1. rewrite (captcha_pending _ _ _ _ _ _ Hr He).
    set (req := api_request this "res" "get" (poll_args (Captcha.id c))).
    set (w2 := after env w1 (EHttp req (Resolved body))).
    assert (Hw2 : now w1 <= now w2) by (simpl; pose proof (Hclock w1 (EHttp req (Resolved body))); lia).
    destruct (rounds_bound (timeout this) (now w - startedAt) (now w2 - startedAt) D fuel)
      as [Hb1 Hb2]; [lia .. | exact Hfuel |].
    destruct (IH (Captcha.mk (Captcha.id c) (JStr body) (second_field body)) w2 Hf Hb2)
      as [bodies [w' [Hn [Hrun [Htr Hlate]]]]].
    exists (body :: bodies), w'. split; [simpl; lia |].
    split; [exact Hrun |]. split; [| exact Hlate].
    rewrite Htr. simpl. fold req. rewrite <- !app_assoc. reflexivity.
Qed.

Lemma bind_Date_now {A} (k : Z -> M A) w : bind Date_now k w = k (now w) w.
Proof. reflexivity. Qed.

Lemma bind_when_false {A B} (m : M A) (k : unit -> M B) w :
  bind (when false m) k w = k tt w.
Proof. reflexivity. Qed.

Lemma bind_ret {A B} (a : A) (k : A -> M B) w : bind (ret a) k w = k a w.
Proof. reflexivity. Qed.

Lemma strict_eq_str_false v lit : v <> JStr lit -> strict_eq_str v lit = false.
Proof.
  intros H. destruct v; simpl; auto. apply String.eqb_neq. congruence.
Qed.

Lemma upload_then_poll_times_out d D fuel options startedAt w :
  always_accepts env errors this ->
  1 <= D -> timer_at_least env d D ->
  (Z.to_nat (timeout this / D) < fuel)%nat ->
  startedAt = now w ->
  times_out this d D
    (decodedCaptcha <- _upload env errors this options ;;
     poll_loop env errors fuel this d startedAt decodedCaptcha) w.
Proof.
  intros Hacc HD Htimer Hfuel ->.
  destruct (Hacc w (upload_args options)) as [sub [Hr Hv]].
  set (req := api_request this "in" "post" (upload_args options)) in *.
  set (w1 := after env w (EHttp req (Resolved sub))).
  assert (Hw1 : now w <= now w1)
    by (simpl; pose proof (Hclock w (EHttp req (Resolved sub))); lia).
  assert (Hdiv : (timeout this - (now w1 - now w)) / D <= timeout this / D)
    by (apply Z.div_le_mono; lia).
  destruct (poll_loop_times_out d D (now w) HD Htimer fuel
              (Captcha.mk (second_field sub) JUndefined JUndefined) w1)
    as [bodies [w' [Hn [Hrun [Htr Hlate]]]]]; [reflexivity | lia |].
  exists req, sub,
    (api_request this "res" "get" (poll_args (second_field sub))), bodies, w'.
  split; [| split; [lia | split; [| exact Hlate]]].
  - unfold bind. rewrite (upload_resolved _ _ _ _ _ _ Hr). unfold bind.
    rewrite !(validateResponse_valid _ _ _ _ _ Hv). exact Hrun.
  - rewrite Htr. simpl. rewrite <- app_assoc. reflexivity.
Qed.

Lemma times_out_ext d D (m m' : M Result) w :
  m w = m' w -> times_out this d D m' w -> times_out this d D m w.
Proof. unfold times_out. intros ->. auto. Qed.


End Timeout.

(** ** Validation of the options *)

Section OptionsValidation.

Variable env : Env.
Variable errors : gmap string string.

Lemma bind_raised {A B} (m : M A) (k : A -> M B) w e w' :
  m w = (Raised e, w') -> bind m k w = (Raised e, w').
Proof. intros H. unfold bind. rewrite H. reflexivity. Qed.

Lemma bind_when_true_raised {A B} (m : M A) (k : unit -> M B) w e w' :
  m w = (Raised e, w') -> bind (when true m) k w = (Raised e, w').
Proof. intros H. apply bind_raised. unfold when. apply bind_raised, H. Qed.

Lemma strict_eq_str_true v lit : v = JStr lit -> strict_eq_str v lit = true.
Proof. intros ->. simpl. apply String.eqb_refl. Qed.

(** The two checks that open the three interactive methods. *)
Lemma two_checks_raise {A} this (k : M A) first second m1 m2 w :
  throwErrors this = true ->
  m1 <> NOT_SOLVED_YET -> m2 <> NOT_SOLVED_YET ->
  first = true \/ second = true ->
  (when first (_throwError env this m1) ;;
   when second (_throwError env this m2) ;; k) w
  = (Raised (Error (if first then m1 else m2)), w).
Proof.
  intros Ht H1 H2 Hc. destruct first.
  - apply bind_when_true_raised, throwError_throw; assumption.
  - destruct Hc as [Hc | ->]; [discriminate |].
    rewrite bind_when_false.
    apply bind_when_true_raised, throwError_throw; assumption.
Qed.

(** C1 (amended): with [throwErrors] set, a call whose required identity
    field is the empty string ([googlekey] or [pageurl] for reCAPTCHA v2
    and v3, [sitekey] or [pageurl] for hCaptcha), and an image call whose
    key is not a string or that has no truthy byte source, raise the
    validation error at once: the world is unchanged, so nothing went to
    the network. *)
Theorem validation_raises_before_any_call fuel this options w :
  throwErrors this = true ->
  (prop options "googlekey" = JStr "" \/ prop options "pageurl" = JStr "" ->
   let message := if strict_eq_str (prop options "googlekey") ""
                  then "Missing googlekey parameter"
                  else "Missing pageurl parameter" in
   decodeRecaptchaV2 env errors fuel this options w = (Raised (Error message), w)
   /\ decodeRecaptchaV3 env errors fuel this options w = (Raised (Error message), w))
  /\ (prop options "sitekey" = JStr "" \/ prop options "pageurl" = JStr "" ->
      let message := if strict_eq_str (prop options "sitekey") ""
                     then "Missing sitekey parameter"
                     else "Missing pageurl parameter" in
      decodeHCaptcha env errors fuel this options w = (Raised (Error message), w))
  /\ (typeof_not_string (key this) = true
      \/ (truthy (prop options "base64") = false
          /\ truthy (prop options "buffer") = false
          /\ truthy (prop options "path") = false
          /\ truthy (prop options "url") = false) ->
      let message := if typeof_not_string (key this)
                     then "2Captcha key must be a string"
                     else "No image data received" in
      decode env errors fuel this options w = (Raised (Error message), w)).
Proof.
  intros Ht. split; [| split].
  - intros Hc message.
    assert (Hc' : strict_eq_str (prop options "googlekey") "" = true
                  \/ strict_eq_str (prop options "pageurl") "" = true)
      by (destruct Hc as [H | H]; [left | right]; apply strict_eq_str_true, H).
    split.
    + unfold decodeRecaptchaV2. rewrite bind_Date_now.
      apply (two_checks_raise this); [assumption | discriminate .. | exact Hc'].
    + unfold decodeRecaptchaV3. rewrite bind_Date_now.
      apply (two_checks_raise this); [assumption | discriminate .. | exact Hc'].
  - intros Hc message.
    assert (Hc' : strict_eq_str (prop options "sitekey") "" = true
                  \/ strict_eq_str (prop options "pageurl") "" = true)
      by (destruct Hc as [H | H]; [left | right]; apply strict_eq_str_true, H).
    unfold decodeHCaptcha. rewrite bind_Date_now.
    apply (two_checks_raise this); [assumption | discriminate .. | exact Hc'].
  - intros Hc message. unfold decode. rewrite bind_Date_now. subst message.
    destruct (typeof_not_string (key this)).
    + apply bind_when_true_raised, throwError_throw; [discriminate | assumption].
    + destruct Hc as [Hc | [Hb [Hbuf [Hp Hu]]]]; [discriminate |].
      rewrite bind_when_false. apply bind_raised.
      unfold _loadCaptcha. rewrite Hb, Hbuf, Hp, Hu.
      apply bind_raised, throwError_throw; [discriminate | assumption].
Qed.

End OptionsValidation.

(** ** The solution that the loop returns *)

Section Solution.

Variable env : Env.
Variable errors : gmap string string.
Variable this : TwoCaptchaClient.

Lemma bind_returned {A B} (m : M A) (k : A -> M B) w b w' :
  bind m k w = (Returned b, w') ->
  exists a w1, m w = (Returned a, w1) /\ k a w1 = (Returned b, w').
Proof.
  unfold bind. destruct (m w) as [[a| |] w1]; try discriminate.
  intros H. exists a, w1. auto.
Qed.

Lemma last_reply_warnings tr ws : last_reply (tr ++ map EWarn ws) = last_reply tr.
Proof.
  induction tr as [|e tr IH]; simpl.
  - induction ws as [|m ws IHws]; simpl; [reflexivity | rewrite IHws; reflexivity].
  - rewrite IH. reflexivity.
Qed.

Lemma last_reply_snoc tr req reply : last_reply (tr ++ [EHttp req reply]) = Some reply.
Proof.
  induction tr as [|e tr IH]; simpl; [reflexivity | rewrite IH; reflexivity].
Qed.

Lemma last_reply_poll tr req reply ws :
  last_reply (tr ++ EHttp req reply :: map EWarn ws) = Some reply.
Proof.
  change (EHttp req reply :: map EWarn ws) with ([EHttp req reply] ++ map EWarn ws).
  rewrite app_assoc, last_reply_warnings. apply last_reply_snoc.
Qed.

(** A poll that returns has been answered, and its Captcha holds the
    answer and the second field of the answer. *)
Lemma captcha_returned captchaId w c w' :
  captcha env errors this captchaId w = (Returned c, w') ->
  exists body,
    c = Captcha.mk captchaId (JStr body) (second_field body)
    /\ last_reply (trace w') = Some (Resolved body).
Proof.
  intros H.
  pose proof (captcha_trace env errors this captchaId w) as [ws Hws].
  rewrite H in Hws. simpl in Hws.
  destruct (http_reply env w (api_request this "res" "get" (poll_args captchaId)))
    as [body|r] eqn:Hr.
  - exists body. split; [| rewrite Hws; apply last_reply_poll].
    rewrite (captcha_resolved _ _ _ _ _ _ Hr) in H.
    apply bind_returned in H as [v [w1 [_ H]]]. unfold ret in H. congruence.
  - unfold captcha, _request, HTTPRequest_request, bind, happen, await in H.
    simpl in H. rewrite Hr in H. discriminate.
Qed.

Lemma upload_returned options w c w' :
  _upload env errors this options w = (Returned c, w') ->
  Captcha.text c = JUndefined.
Proof.
  intros H. unfold _upload in H.
  apply bind_returned in H as [res [w1 [_ H]]].
  apply bind_returned in H as [v [w2 [_ H]]].
  unfold ret in H. injection H as <- _. reflexivity.
Qed.

(** The Captcha that the loop returns is the one it was given, when that
    one has a text, and otherwise the answer to the last poll. *)
Lemma poll_loop_returned delay startedAt :
  forall fuel decodedCaptcha w c w',
    poll_loop env errors fuel this delay startedAt decodedCaptcha w
    = (Returned (Object c), w') ->
    (c = decodedCaptcha /\ w' = w /\ truthy (Captcha.text decodedCaptcha) = true)
    \/ solved_by_last_reply c (trace w').
Proof.
  induction fuel as [|fuel IH]; intros c0 w c w' H; simpl in H.
  - destruct (truthy (Captcha.text c0)) eqn:Ht; simpl in H; [| discriminate].
    left. unfold ret in H. injection H as -> ->. auto.
  - destruct (truthy (Captcha.text c0)) eqn:Ht; simpl in H.
    { left. unfold ret in H. injection H as -> ->. auto. }
    right.
    apply bind_returned in H as [[] [w1 [_ H]]].
    apply bind_returned in H as [t [w1' [Hnow H]]].
    unfold Date_now in Hnow. injection Hnow as <- <-.
    destruct (now w1 - startedAt >? timeout this).
    + apply bind_returned in H as [v [w2 [_ H]]]. discriminate.
    + apply bind_returned in H as [c1 [w2 [Hc H]]].
      apply captcha_returned in Hc as [body [-> Hlast]].
      apply IH in H as [[-> [-> Htext]] | H]; [| exact H].
      exists body. auto.
Qed.

(** One round that ends the loop: after the sleep the timeout has not
    fired and the poll is answered by a valid body whose second field is
    not empty. *)
Lemma poll_loop_solved fuel delay startedAt decodedCaptcha w body :
  truthy (Captcha.text decodedCaptcha) = false ->
  let w1 := after env w (ESleep delay) in
  let req := api_request this "res" "get" (poll_args (Captcha.id decodedCaptcha)) in
  now w1 - startedAt <= timeout this ->
  http_reply env w1 req = Resolved body ->
  response_message errors body = None ->
  truthy (second_field body) = true ->
  poll_loop env errors (S fuel) this delay startedAt decodedCaptcha w
  = (Returned (Object (Captcha.mk (Captcha.id decodedCaptcha) (JStr body)
                         (second_field body))),
     after env w1 (EHttp req (Resolved body))).
Proof.
  intros Ht w1 req Hle Hr Hv Hs. simpl. rewrite Ht. simpl.
  unfold bind at 1. unfold _sleep, happen.
  unfold bind at 1. unfold Date_now. fold w1.
  destruct (Z.gtb_spec (now w1 - startedAt) (timeout this)); [lia |].
  unfold bind at 1. rewrite (captcha_resolved _ _ _ _ _ _ Hr). unfold bind.
  rewrite (validateResponse_valid _ _ _ _ _ Hv). simpl.
  destruct fuel; simpl; rewrite Hs; reflexivity.
Qed.

(** The loop against a service that answers after [k] rounds without a
    solution: it returns the Captcha of the answer, has slept [k + 1]
    times with its delay, and has taken as long as those timers. *)
Lemma poll_loop_answers delay startedAt :
  forall k fuel decodedCaptcha w body,
    truthy (Captcha.text decodedCaptcha) = false ->
    answers_after env errors this delay startedAt (Captcha.id decodedCaptcha) k w body ->
    (k < fuel)%nat ->
    exists w',
      poll_loop env errors fuel this delay startedAt decodedCaptcha w
      = (Returned (Object (Captcha.mk (Captcha.id decodedCaptcha) (JStr body)
                             (second_field body))), w')
      /\ sleeps (trace w') = sleeps (trace w) ++ replicate (S k) delay
      /\ (clock_monotone env ->
          forall D, timer_at_least env delay D ->
                    now w + Z.of_nat (S k) * D <= now w').
Proof.
  induction k as [|k IH]; intros fuel c w body Ht Ha Hlt;
    (destruct fuel as [|fuel]; [lia |]).
  - destruct Ha as [Hle [Hr [Hv Hs]]]. eexists. split; [| split].
    + apply poll_loop_solved; assumption.
    + simpl. rewrite !sleeps_app. simpl. rewrite app_nil_r. reflexivity.
    + intros Hclock D HD. simpl.
      pose proof (HD w). pose proof (Hclock (after env w (ESleep delay))
        (EHttp (api_request this "res" "get" (poll_args (Captcha.id c)))
           (Resolved body))). simpl in *. lia.
  - destruct Ha as [Hle [pending [Hr [Hno [Hs Ha]]]]].
    set (w1 := after env w (ESleep delay)) in *.
    set (req := api_request this "res" "get" (poll_args (Captcha.id c))) in *.
    set (w2 := after env w1 (EHttp req (Resolved pending))) in *.
    destruct (IH fuel (Captcha.mk (Captcha.id c) (JStr pending) (second_field pending))
                w2 body Hs Ha ltac:(lia)) as [w' [Hrun [Hsl Htime]]].
    exists w'. split; [| split].
    + simpl. rewrite Ht. simpl.
      unfold bind at 1. unfold _sleep, happen.
      unfold bind at 1. unfold Date_now. fold w1.
      destruct (Z.gtb_spec (now w1 - startedAt) (timeout this)); [lia |].
      unfold bind at 1. rewrite (captcha_resolved _ _ _ _ _ _ Hr). unfold bind at 1.
      fold req. fold w2.
      destruct (validateResponse_no_reported env errors this pending w2 Hno) as [v ->].
      exact Hrun.
    + rewrite Hsl. unfold w2, w1. simpl. rewrite !sleeps_app. simpl.
      rewrite app_nil_r, <- app_assoc. reflexivity.
    + intros Hclock D HD. specialize (Htime Hclock D HD).
      pose proof (HD w). pose proof (Hclock w1 (EHttp req (Resolved pending))).
      unfold w2, w1 in *. simpl in *. lia.
Qed.

Lemma upload_then_poll_answers delay options startedAt w sub k body fuel :
  solved_after env errors this delay options startedAt w sub k body ->
  (k < fuel)%nat ->
  exists w',
    (decodedCaptcha <- _upload env errors this options ;;
     poll_loop env errors fuel this delay startedAt decodedCaptcha) w
    = (Returned (Object (Captcha.mk (second_field sub) (JStr body)
                           (second_field body))), w')
    /\ sleeps (trace w') = sleeps (trace w) ++ replicate (S k) delay
    /\ (clock_monotone env ->
        forall D, timer_at_least env delay D ->
                  now w + Z.of_nat (S k) * D <= now w').
Proof.
  intros [Hr [Hv Ha]] Hlt.
  set (w1 := after env w (EHttp (api_request this "in" "post" (upload_args options))
                            (Resolved sub))) in *.
  destruct (poll_loop_answers delay startedAt k fuel
              (Captcha.mk (second_field sub) JUndefined JUndefined) w1 body
              eq_refl Ha Hlt) as [w' [Hrun [Hsl Htime]]].
  exists w'. split; [| split].
  - unfold bind at 1. rewrite (upload_resolved _ _ _ _ _ _ Hr). unfold bind at 1 2.
    fold w1. rewrite !(validateResponse_valid _ _ _ _ _ Hv). exact Hrun.
  - rewrite Hsl. unfold w1. simpl. rewrite sleeps_app. simpl.
    rewrite app_nil_r. reflexivity.
  - intros Hclock D HD. specialize (Htime Hclock D HD).
    pose proof (Hclock w (EHttp (api_request this "in" "post" (upload_args options))
                            (Resolved sub))).
    unfold w1 in *. simpl in *. lia.
Qed.

Lemma decodeRecaptchaV2_answers options w sub k body fuel :
  strict_eq_str (prop options "googlekey") "" = false ->
  strict_eq_str (prop options "pageurl") "" = false ->
  solved_after env errors this (Z.max (polling this) 10) (recaptchaV2_fields options)
    (now w) w sub k body ->
  (k < fuel)%nat ->
  solves_in env (decodeRecaptchaV2 env errors fuel this options) w w sub body k
    (Z.max (polling this) 10).
Proof.
  intros Hg Hp Hs Hlt. unfold solves_in, decodeRecaptchaV2.
  rewrite bind_Date_now, Hg, Hp, !bind_when_false.
  apply upload_then_poll_answers; assumption.
Qed.

Lemma decodeRecaptchaV3_answers options w sub k body fuel :
  strict_eq_str (prop options "googlekey") "" = false ->
  strict_eq_str (prop options "pageurl") "" = false ->
  solved_after env errors this (Z.max (polling this) 10) (recaptchaV3_fields options)
    (now w) w sub k body ->
  (k < fuel)%nat ->
  solves_in env (decodeRecaptchaV3 env errors fuel this options) w w sub body k
    (Z.max (polling this) 10).
Proof.
  intros Hg Hp Hs Hlt. unfold solves_in, decodeRecaptchaV3.
  rewrite bind_Date_now, Hg, Hp, !bind_when_false.
  apply upload_then_poll_answers; assumption.
Qed.

Lemma decodeHCaptcha_answers options w sub k body fuel :
  strict_eq_str (prop options "sitekey") "" = false ->
  strict_eq_str (prop options "pageurl") "" = false ->
  solved_after env errors this (Z.max (polling this) 10) (hcaptcha_fields options)
    (now w) w sub k body ->
  (k < fuel)%nat ->
  solves_in env (decodeHCaptcha env errors fuel this options) w w sub body k
    (Z.max (polling this) 10).
Proof.
  intros Hg Hp Hs Hlt. unfold solves_in, decodeHCaptcha.
  rewrite bind_Date_now, Hg, Hp, !bind_when_false.
  apply upload_then_poll_answers; assumption.
Qed.

(** [decode] loads the image first; the submission is made in the world
    [w1] that the load leaves, with the loaded text under [base64]. *)
Lemma decode_answers options w base64 w1 sub k body fuel :
  typeof_not_string (key this) = false ->
  _loadCaptcha env this options w = (Returned base64, w1) ->
  solved_after env errors this (polling this) (<["base64" := base64]> options)
    (now w) w1 sub k body ->
  (k < fuel)%nat ->
  solves_in env (decode env errors fuel this options) w1 w sub body k (polling this).
Proof.
  intros Hk Hl Hs Hlt. unfold solves_in, decode.
  rewrite bind_Date_now, Hk, bind_when_false. unfold bind at 1. rewrite Hl.
  apply upload_then_poll_answers; assumption.
Qed.

Ltac returned_prefix H :=
  let a := fresh "a" in
  let w1 := fresh "w" in
  apply bind_returned in H as [a [w1 [_ H]]].

Ltac returned_by_loop H :=
  let c0 := fresh "c" in
  let w2 := fresh "w" in
  let Hu := fresh "Hu" in
  let Ht := fresh "Ht" in
  apply bind_returned in H as [c0 [w2 [Hu H]]];
  apply upload_returned in Hu;
  apply poll_loop_returned in H as [[-> [_ Ht]] | H];
  [rewrite Hu in Ht; discriminate | exact H].

(** C4: a poll answered by a valid body returns a Captcha whose text is
    the second [|]-field of the body; a round in which such a body has a
    non-empty second field ends the loop with that Captcha; whenever a
    [decode...] method returns a Captcha, it is the answer to the last
    request and its text is the second field of that answer; and each of
    the four methods does return it: when the submission is accepted and
    the polls are answered, after any number of rounds without a solution,
    by a valid body whose second field is not empty, the method, given
    fuel for those rounds, returns the Captcha that holds this body and,
    as its text, the body's second field. *)
Theorem solution_text_is_second_field :
  (forall captchaId w body,
      http_reply env w (api_request this "res" "get" (poll_args captchaId))
      = Resolved body ->
      response_message errors body = None ->
      captcha env errors this captchaId w
      = (Returned (Captcha.mk captchaId (JStr body) (second_field body)),
         after env w (EHttp (api_request this "res" "get" (poll_args captchaId))
                         (Resolved body))))
  /\ (forall fuel delay startedAt decodedCaptcha w body,
         truthy (Captcha.text decodedCaptcha) = false ->
         now (after env w (ESleep delay)) - startedAt <= timeout this ->
         http_reply env (after env w (ESleep delay))
           (api_request this "res" "get" (poll_args (Captcha.id decodedCaptcha)))
         = Resolved body ->
         response_message errors body = None ->
         truthy (second_field body) = true ->
         fst (poll_loop env errors (S fuel) this delay startedAt decodedCaptcha w)
         = Returned (Object (Captcha.mk (Captcha.id decodedCaptcha) (JStr body)
                               (second_field body))))
  /\ (forall fuel options w c w',
         decode env errors fuel this options w = (Returned (Object c), w')
         \/ decodeRecaptchaV2 env errors fuel this options w = (Returned (Object c), w')
         \/ decodeRecaptchaV3 env errors fuel this options w = (Returned (Object c), w')
         \/ decodeHCaptcha env errors fuel this options w = (Returned (Object c), w') ->
         solved_by_last_reply c (trace w'))
  /\ (forall options w base64 w1 sub k body fuel,
         typeof_not_string (key this) = false ->
         _loadCaptcha env this options w = (Returned base64, w1) ->
         solved_after env errors this (polling this) (<["base64" := base64]> options)
           (now w) w1 sub k body ->
         (k < fuel)%nat ->
         fst (decode env errors fuel this options w)
         = Returned (Object (Captcha.mk (second_field sub) (JStr body)
                               (second_field body))))
  /\ (forall options,
         strict_eq_str (prop options "googlekey") "" = false ->
         strict_eq_str (prop options "pageurl") "" = false ->
         returns_the_solution env errors this (Z.max (polling this) 10)
           (recaptchaV2_fields options)
           (fun fuel => decodeRecaptchaV2 env errors fuel this options)
         /\ returns_the_solution env errors this (Z.max (polling this) 10)
              (recaptchaV3_fields options)
              (fun fuel => decodeRecaptchaV3 env errors fuel this options))
  /\ (forall options,
         strict_eq_str (prop options "sitekey") "" = false ->
         strict_eq_str (prop options "pageurl") "" = false ->
         returns_the_solution env errors this (Z.max (polling this) 10)
           (hcaptcha_fields options)
           (fun fuel => decodeHCaptcha env errors fuel this options))
  /\ second_field "OK|ABCD1234" = JStr "ABCD1234".
Proof.
  repeat match goal with |- _ /\ _ => split end; [| | | | | | reflexivity].
  - intros captchaId w body Hr Hv.
    rewrite (captcha_resolved _ _ _ _ _ _ Hr). unfold bind.
    rewrite (validateResponse_valid _ _ _ _ _ Hv). reflexivity.
  - intros fuel delay startedAt c0 w body Ht Hle Hr Hv Hs.
    rewrite (poll_loop_solved fuel delay startedAt c0 w body); auto.
  - intros fuel options w0 c w' [H | [H | [H | H]]].
    + unfold decode in H. do 3 returned_prefix H. returned_by_loop H.
    + unfold decodeRecaptchaV2 in H. do 3 returned_prefix H. returned_by_loop H.
    + unfold decodeRecaptchaV3 in H. do 3 returned_prefix H. returned_by_loop H.
    + unfold decodeHCaptcha in H. do 3 returned_prefix H. returned_by_loop H.
  - intros options w base64 w1 sub k body fuel Hk Hl Hs Hlt.
    destruct (decode_answers options w base64 w1 sub k body fuel Hk Hl Hs Hlt)
      as [w' [-> _]].
    reflexivity.
  - intros options Hg Hp. split; intros w sub k body fuel Hs Hlt.
    + destruct (decodeRecaptchaV2_answers options w sub k body fuel Hg Hp Hs Hlt)
        as [w' [-> _]].
      reflexivity.
    + destruct (decodeRecaptchaV3_answers options w sub k body fuel Hg Hp Hs Hlt)
        as [w' [-> _]].
      reflexivity.
  - intros options Hg Hp w sub k body fuel Hs Hlt.
    destruct (decodeHCaptcha_answers options w sub k body fuel Hg Hp Hs Hlt)
      as [w' [-> _]].
    reflexivity.
Qed.

Ltac polls_steps :=
  repeat (apply polls_with_bind;
          [first [apply sleepless_Date_now
                 | apply sleepless_when, sleepless_throwError
                 | apply sleepless_loadCaptcha
                 | apply sleepless_upload] | intros]);
  apply polls_with_poll_loop.


End Solution.

(** ** The image sources *)

Section ImageSources.

Variable env : Env.
Variable errors : gmap string string.
Variable this : TwoCaptchaClient.

Lemma requests_app a b : requests (a ++ b) = requests a ++ requests b.
Proof. apply omap_app. Qed.

Lemma requests_warnings ws : requests (map EWarn ws) = [].
Proof. induction ws; simpl; auto. Qed.

(** Whatever follows, the submission of [_upload] is the next request. *)
Lemma upload_then_poll_requests fuel delay startedAt options w :
  exists rest,
    requests (trace (snd ((decodedCaptcha <- _upload env errors this options ;;
                           poll_loop env errors fuel this delay startedAt decodedCaptcha) w)))
    = requests (trace w)
      ++ api_request this "in" "post" (upload_args options) :: rest.
Proof.
  destruct (upload_trace env errors this options w) as [ws Hws].
  unfold bind. destruct (_upload env errors this options w) as [[c| |] w1];
    simpl in Hws.
  - destruct (poll_loop_trace env errors fuel this delay startedAt c w1)
      as [evs [Hevs _]].
    exists (requests evs). rewrite Hevs, Hws.
    rewrite !requests_app. unfold requests at 3. simpl.
    fold (requests (map EWarn ws)). rewrite requests_warnings, <- app_assoc.
    reflexivity.
  - exists []. simpl. rewrite Hws, requests_app. unfold requests at 2. simpl.
    fold (requests (map EWarn ws)). rewrite requests_warnings. reflexivity.
  - exists []. simpl. rewrite Hws, requests_app. unfold requests at 2. simpl.
    fold (requests (map EWarn ws)). rewrite requests_warnings. reflexivity.
Qed.

Lemma prop_singleton k v : prop {[ k := v ]} k = v.
Proof. unfold prop. rewrite lookup_singleton_eq. reflexivity. Qed.

Lemma prop_insert k v (o : JsObject) : prop (<[k := v]> o) k = v.
Proof. unfold prop. rewrite lookup_insert_eq. reflexivity. Qed.

Lemma first_of_drop {A} (l : list A) x rest :
  drop (length l) (l ++ x :: rest) !! 0%nat = Some x.
Proof. rewrite drop_app_length. reflexivity. Qed.

(** [decode] when the image has been loaded as [b64] in world [w1]. *)
Lemma decode_loaded fuel options w w1 b64 :
  typeof_not_string (key this) = false ->
  _loadCaptcha env this options w = (Returned b64, w1) ->
  requests (trace w1) = requests (trace w) ->
  first_submission env errors fuel this options w
  = Some (api_request this "in" "post" (upload_args (<["base64" := b64]> options))).
Proof.
  intros Hkey Hload Hreq. unfold first_submission, decode.
  rewrite bind_Date_now, Hkey, bind_when_false.
  unfold bind at 1. rewrite Hload.
  destruct (upload_then_poll_requests fuel (polling this) (now w)
              (<["base64" := b64]> options) w1) as [rest Hrest].
  rewrite Hrest, Hreq. apply first_of_drop.
Qed.

(** C6 (amended): for every non-empty sequence of bytes, [decode] given
    the bytes as a base64 string, as a buffer, as a file that holds them or
    as a URL that serves them first sends one and the same request, whose
    [body] is the base64 encoding of the bytes. *)
Theorem image_sources_converge fuel bs path target w :
  bs <> [] ->
  typeof_not_string (key this) = false ->
  truthy path = true -> truthy target = true ->
  read_file_reply env w path = Resolved bs ->
  data_url_reply env w target = Resolved bs ->
  let b64 := JStr (base64 bs) in
  let submission :=
    Some (api_request this "in" "post"
            (<["body" := b64]> {[ "method" := JStr "base64" ]})) in
  first_submission env errors fuel this {[ "base64" := b64 ]} w = submission
  /\ first_submission env errors fuel this {[ "buffer" := JBuffer bs ]} w = submission
  /\ first_submission env errors fuel this {[ "path" := path ]} w = submission
  /\ first_submission env errors fuel this {[ "url" := target ]} w = submission.
Proof.
  intros Hbs Hkey Hpath Htarget Hfile Hurl b64 submission.
  pose proof (truthy_base64 bs Hbs) as Hb64. fold b64 in Hb64.
  assert (Hargs : forall source v,
             source = "base64" \/ source = "buffer" \/ source = "path" \/ source = "url" ->
             upload_args (<["base64" := b64]> {[ source := v ]})
             = <["body" := b64]> {[ "method" := JStr "base64" ]}).
  { intros source v Hs. unfold upload_args.
    rewrite prop_insert, Hb64.
    destruct Hs as [-> | [-> | [-> | ->]]]; reflexivity. }
  repeat split.
  - rewrite (decode_loaded fuel _ w w b64 Hkey); [| | reflexivity].
    + unfold submission. rewrite Hargs; auto.
    + unfold _loadCaptcha. rewrite prop_singleton, Hb64. reflexivity.
  - rewrite (decode_loaded fuel _ w w b64 Hkey); [| | reflexivity].
    + unfold submission. rewrite Hargs; auto.
    + reflexivity.
  - rewrite (decode_loaded fuel _ w (after env w (EReadFile path (Resolved bs))) b64 Hkey).
    + unfold submission. rewrite Hargs; auto.
    + unfold _loadCaptcha. rewrite prop_singleton, Hpath.
      change (prop {[ "path" := path ]} "base64") with JUndefined.
      change (prop {[ "path" := path ]} "buffer") with JUndefined.
      cbn [truthy]. unfold readFileAsync, bind, happen, await. simpl.
      rewrite Hfile. reflexivity.
    + simpl. rewrite requests_app. simpl. apply app_nil_r.
  - rewrite (decode_loaded fuel _ w (after env w (EOpenDataURL target (Resolved bs)))
               b64 Hkey).
    + unfold submission. rewrite Hargs; auto.
    + unfold _loadCaptcha. rewrite prop_singleton, Htarget.
      change (prop {[ "url" := target ]} "base64") with JUndefined.
      change (prop {[ "url" := target ]} "buffer") with JUndefined.
      change (prop {[ "url" := target ]} "path") with JUndefined.
      cbn [truthy]. unfold HTTPRequest_openDataURL, bind, happen, await. simpl.
      rewrite Hurl. reflexivity.
    + simpl. rewrite requests_app. simpl. apply app_nil_r.
Qed.

End ImageSources.

(** * Runs on the sample collaborators *)

Lemma sample_errors_nonempty : messages_nonempty sample_errors.
Proof.
  intros code message H ->. unfold sample_errors in H.
  apply lookup_insert_Some in H as [[_ H] | [_ H]]; [discriminate |].
  apply lookup_insert_Some in H as [[_ H] | [_ H]]; [discriminate |].
  apply lookup_singleton_Some in H as [_ H]. discriminate.
Qed.

Lemma never_solving_clock content : clock_monotone (never_solving content).
Proof. intros w e. destruct e; simpl; lia. Qed.

Lemma never_solving_pending content this :
  always_pending (never_solving content) sample_errors this.
Proof.
  intros w captchaId. exists "CAPCHA_NOT_READY".
  split; [reflexivity |]. split; vm_compute; reflexivity.
Qed.

Lemma never_solving_accepts content this :
  always_accepts (never_solving content) sample_errors this.
Proof.
  intros w args. exists "OK|2122988149".
  split; [reflexivity | vm_compute; reflexivity].
Qed.

(** A solved image captcha: the second poll brings the text. *)
Example decode_solved :
  fst (decode (scripted ["OK|2122988149"; "CAPCHA_NOT_READY"; "OK|ABCD1234"] "" [])
         sample_errors 5 (sample_client true) {[ "base64" := JStr "TWFu" ]} start)
  = Returned (Object (Captcha.mk (JStr "2122988149") (JStr "OK|ABCD1234") (JStr "ABCD1234"))).
Proof. vm_compute. reflexivity. Qed.

(** A reCAPTCHA that is never solved, with an interval under the floor. *)
Example decodeRecaptchaV2_floor :
  sleeps (trace (snd (decodeRecaptchaV2 (never_solving []) sample_errors 10
                        {| key := JStr "k"; timeout := 25; polling := 3; throwErrors := false |}
                        {[ "googlekey" := JStr "6Le-wvkS"; "pageurl" := JStr "https://example.com/" ]}
                        start)))
  = [10; 10; 10].
Proof. vm_compute. reflexivity. Qed.

(** The same service polled for an image, with the same configuration. *)
Example decode_no_floor :
  sleeps (trace (snd (decode (never_solving []) sample_errors 10
                        {| key := JStr "k"; timeout := 25; polling := 3; throwErrors := false |}
                        {[ "base64" := JStr "TWFu" ]} start)))
  = [3; 3; 3; 3; 3; 3; 3; 3; 3].
Proof. vm_compute. reflexivity. Qed.

(** C1, counterexample: a non-throwing client given an empty [googlekey]
    only logs the warning, and a throwing client given no [googlekey] at all
    finds nothing to report; both go on to the network and return the
    solution. *)
Lemma empty_or_missing_field_reaches_network :
  (fst (decodeRecaptchaV2 (scripted ["OK|2122988149"; "OK|03AGdBq25"] "" [])
          sample_errors 5 (sample_client false)
          {[ "googlekey" := JStr ""; "pageurl" := JStr "https://example.com/" ]} start)
   = Returned (Object (Captcha.mk (JStr "2122988149") (JStr "OK|03AGdBq25")
                         (JStr "03AGdBq25")))
   /\ length (network_calls
                (trace (snd (decodeRecaptchaV2
                               (scripted ["OK|2122988149"; "OK|03AGdBq25"] "" [])
                               sample_errors 5 (sample_client false)
                               {[ "googlekey" := JStr "";
                                  "pageurl" := JStr "https://example.com/" ]} start))))
      = 2%nat)
  /\ (fst (decodeRecaptchaV2 (scripted ["OK|2122988149"; "OK|03AGdBq25"] "" [])
             sample_errors 5 (sample_client true)
             {[ "pageurl" := JStr "https://example.com/" ]} start)
      = Returned (Object (Captcha.mk (JStr "2122988149") (JStr "OK|03AGdBq25")
                            (JStr "03AGdBq25")))
      /\ length (network_calls
                   (trace (snd (decodeRecaptchaV2
                                  (scripted ["OK|2122988149"; "OK|03AGdBq25"] "" [])
                                  sample_errors 5 (sample_client true)
                                  {[ "pageurl" := JStr "https://example.com/" ]} start))))
         = 2%nat).
Proof. vm_compute. repeat split. Qed.

Lemma validation_raises_before_any_call_witness :
  decodeRecaptchaV2 (scripted [] "OK|2122988149" []) sample_errors 5 (sample_client true)
    {[ "googlekey" := JStr ""; "pageurl" := JStr "https://example.com/" ]} start
  = (Raised (Error "Missing googlekey parameter"), start).
Proof.
  destruct (validation_raises_before_any_call
              (scripted [] "OK|2122988149" []) sample_errors 5 (sample_client true)
              {[ "googlekey" := JStr ""; "pageurl" := JStr "https://example.com/" ]}
              start eq_refl) as [H _].
  destruct H as [H _]; [left; reflexivity | exact H].
Defined.

Lemma captcha_not_solved_yet_witness :
  fst (captcha (scripted [] "CAPCHA_NOT_READY" []) sample_errors (sample_client true)
         (JStr "2122988149") start)
  = Returned (Captcha.mk (JStr "2122988149") (JStr "CAPCHA_NOT_READY") JUndefined).
Proof.
  destruct (captcha_not_solved_yet
              (scripted [] "CAPCHA_NOT_READY" []) sample_errors (sample_client true)
              (JStr "2122988149") start "CAPCHA_NOT_READY") as [H _];
    [reflexivity | vm_compute; reflexivity |].
  rewrite H. reflexivity.
Defined.

(** C3, counterexample: on a remote error a non-throwing client's [_upload]
    returns a Captcha object, which is truthy; with a delimiter in the body
    even the id of that object is a non-empty string. *)
Lemma submit_error_returns_captcha_object :
  (fst (_upload (scripted [] "ERROR_ZERO_BALANCE" []) sample_errors (sample_client false)
          {[ "base64" := JStr "TWFu" ]} start)
   = Returned (Captcha.mk JUndefined JUndefined JUndefined)
   /\ truthy_result (Object (Captcha.mk JUndefined JUndefined JUndefined)) = true)
  /\ (fst (_upload (scripted [] "ERROR|7" []) sample_errors (sample_client false)
             {[ "base64" := JStr "TWFu" ]} start)
      = Returned (Captcha.mk (JStr "7") JUndefined JUndefined)
      /\ truthy (JStr "7") = true).
Proof. vm_compute. repeat split. Qed.

Lemma upload_remote_error_witness :
  fst (_upload (scripted [] "ERROR_ZERO_BALANCE" []) sample_errors (sample_client false)
         {[ "base64" := JStr "TWFu" ]} start)
  = Returned (Captcha.mk JUndefined JUndefined JUndefined)
  /\ warnings (trace (snd (_upload (scripted [] "ERROR_ZERO_BALANCE" []) sample_errors
                             (sample_client false) {[ "base64" := JStr "TWFu" ]} start)))
     = ["You don't have funds on your account."; "You don't have funds on your account."]
  /\ fst (_upload (scripted [] "ERROR_ZERO_BALANCE" []) sample_errors (sample_client true)
            {[ "base64" := JStr "TWFu" ]} start)
     = Raised (Error "You don't have funds on your account.").
Proof.
  assert (He : remote_error sample_errors "ERROR_ZERO_BALANCE"
                 "You don't have funds on your account.")
    by (split; [vm_compute; reflexivity | discriminate]).
  destruct (upload_remote_error
              (scripted [] "ERROR_ZERO_BALANCE" []) sample_errors (sample_client false)
              {[ "base64" := JStr "TWFu" ]} start "ERROR_ZERO_BALANCE" _ eq_refl He)
    as [_ [_ Hwarn]].
  destruct (upload_remote_error
              (scripted [] "ERROR_ZERO_BALANCE" []) sample_errors (sample_client true)
              {[ "base64" := JStr "TWFu" ]} start "ERROR_ZERO_BALANCE" _ eq_refl He)
    as [_ [Hthrow _]].
  destruct (Hwarn eq_refl) as [_ Hu]. destruct (Hthrow eq_refl) as [_ Hr].
  rewrite Hu, Hr. repeat split.
Defined.

Lemma scripted_pending message :
  ~ reported_error sample_errors "CAPCHA_NOT_READY" message.
Proof.
  intros [H Hn]. vm_compute in H. injection H as <-. apply Hn. reflexivity.
Qed.

Lemma solution_text_is_second_field_witness :
  fst (decode (scripted ["OK|2122988149"; "CAPCHA_NOT_READY"; "OK|ABCD1234"] "" [])
         sample_errors 5 (sample_client true) {[ "base64" := JStr "TWFu" ]} start)
  = Returned (Object (Captcha.mk (JStr "2122988149") (JStr "OK|ABCD1234") (JStr "ABCD1234"))).
Proof.
  destruct (solution_text_is_second_field
              (scripted ["OK|2122988149"; "CAPCHA_NOT_READY"; "OK|ABCD1234"] "" [])
              sample_errors (sample_client true))
    as [_ [_ [_ [H _]]]].
  apply (H {[ "base64" := JStr "TWFu" ]} start (JStr "TWFu") start
           "OK|2122988149" 1%nat "OK|ABCD1234" 5%nat);
    [reflexivity | reflexivity | | lia].
  split; [reflexivity | split; [vm_compute; reflexivity |]].
  split; [vm_compute; discriminate |].
  exists "CAPCHA_NOT_READY".
  split; [reflexivity | split; [exact scripted_pending | split; [reflexivity |]]].
  split; [vm_compute; discriminate |].
  split; [reflexivity | split; vm_compute; reflexivity].
Defined.

Lemma scripted_clock script last_body content :
  clock_monotone (scripted script last_body content).
Proof. intros w e. destruct e; simpl; lia. Qed.

Lemma scripted_timer script last_body content d :
  timer_at_least (scripted script last_body content) d d.
Proof. intros w. simpl. lia. Qed.



(** C6, counterexample: the empty image.  A throwing client given the empty
    base64 string sends nothing, and given the empty buffer it sends a
    request that has no [body]. *)
Lemma empty_image_diverges :
  base64 [] = ""
  /\ first_submission (scripted [] "OK|2122988149" []) sample_errors 1 (sample_client true)
       {[ "base64" := JStr "" ]} start = None
  /\ first_submission (scripted [] "OK|2122988149" []) sample_errors 1 (sample_client true)
       {[ "buffer" := JBuffer [] ]} start
     = Some (api_request (sample_client true) "in" "post" {[ "method" := JStr "base64" ]}).
Proof. vm_compute. repeat split. Qed.

Lemma image_sources_converge_witness :
  first_submission (scripted [] "OK|2122988149" [x4d; x61; x6e]) sample_errors 1
    (sample_client true) {[ "base64" := JStr "TWFu" ]} start
  = Some (api_request (sample_client true) "in" "post"
            (<["body" := JStr "TWFu"]> {[ "method" := JStr "base64" ]}))
  /\ first_submission (scripted [] "OK|2122988149" [x4d; x61; x6e]) sample_errors 1
       (sample_client true) {[ "buffer" := JBuffer [x4d; x61; x6e] ]} start
     = Some (api_request (sample_client true) "in" "post"
               (<["body" := JStr "TWFu"]> {[ "method" := JStr "base64" ]}))
  /\ first_submission (scripted [] "OK|2122988149" [x4d; x61; x6e]) sample_errors 1
       (sample_client true) {[ "path" := JStr "captcha.png" ]} start
     = Some (api_request (sample_client true) "in" "post"
               (<["body" := JStr "TWFu"]> {[ "method" := JStr "base64" ]}))
  /\ first_submission (scripted [] "OK|2122988149" [x4d; x61; x6e]) sample_errors 1
       (sample_client true) {[ "url" := JStr "https://example.com/captcha.png" ]} start
     = Some (api_request (sample_client true) "in" "post"
               (<["body" := JStr "TWFu"]> {[ "method" := JStr "base64" ]})).
Proof.
  apply (image_sources_converge
           (scripted [] "OK|2122988149" [x4d; x61; x6e]) sample_errors (sample_client true)
           1 [x4d; x61; x6e] (JStr "captcha.png") (JStr "https://example.com/captcha.png")
           start); [discriminate | reflexivity ..].
Defined.

(** C8, counterexample: a throwing client that receives a remote error on
    its report raises the error and returns nothing. *)
Lemma report_raises_on_remote_error :
  fst (report (scripted [] "ERROR_WRONG_CAPTCHA_ID" []) sample_errors (sample_client true)
         (JStr "2122988149") true start)
  = Raised (Error "You've provided incorrect captcha ID.")
  /\ fst (report (scripted [] "ERROR_WRONG_CAPTCHA_ID" []) sample_errors (sample_client true)
            (JStr "2122988149") true start)
     <> Returned false.
Proof. vm_compute. split; [reflexivity | discriminate]. Qed.

Lemma report_outcome_witness :
  fst (report (scripted [] "OK_REPORT_RECORDED" []) sample_errors (sample_client false)
         (JStr "2122988149") true start) = Returned true
  /\ fst (report (scripted [] "ERROR_WRONG_CAPTCHA_ID" []) sample_errors (sample_client false)
            (JStr "2122988149") true start) = Returned false.
Proof.
  destruct (report_outcome
              (scripted [] "OK_REPORT_RECORDED" []) sample_errors (sample_client false)
              (JStr "2122988149") true start "OK_REPORT_RECORDED" eq_refl)
    as [_ [H1 _]].
  destruct (report_outcome
              (scripted [] "ERROR_WRONG_CAPTCHA_ID" []) sample_errors (sample_client false)
              (JStr "2122988149") true start "ERROR_WRONG_CAPTCHA_ID" eq_refl)
    as [_ [H2 _]].
  rewrite H1, H2 by (left; reflexivity). split; reflexivity.
Defined.

Lemma inherited_member_is_reported_witness :
  classified sample_errors "constructor" Valid
  /\ fst (_validateResponse (scripted [] "constructor" []) sample_errors
            (sample_client true) "constructor" start)
     = Raised (Error "function Object() { [native code] }")
  /\ fst (balance (scripted [] "constructor" []) sample_errors (sample_client true) start)
     <> Returned "constructor".
Proof.
  destruct (inherited_member_is_reported
              (scripted [] "constructor" []) sample_errors (sample_client true)
              "constructor" "function Object() { [native code] }" start
              eq_refl eq_refl)
    as [Hc [Hv _]].
  split; [exact Hc | split; [rewrite Hv; reflexivity |]].
  vm_compute. discriminate.
Defined.

Lemma second_field_absent_witness :
  fst (_upload (scripted [] "OK" []) sample_errors (sample_client true)
         {[ "base64" := JStr "TWFu" ]} start)
  = Returned (Captcha.mk JUndefined JUndefined JUndefined)
  /\ fst (captcha (scripted [] "OK" []) sample_errors (sample_client true)
            (JStr "2122988149") start)
     = Returned (Captcha.mk (JStr "2122988149") (JStr "OK") JUndefined).
Proof.
  destruct (second_field_absent
              (scripted [] "OK" []) sample_errors (sample_client true) "OK" start)
    as [Hu Hc]; [vm_compute; reflexivity | reflexivity |].
  rewrite (Hu _ eq_refl), (Hc _ eq_refl). split; reflexivity.
Defined.

(** * Further properties of the client *)

(** ** The arguments of a submission *)

Lemma lookup_upload_args (options : JsObject) k :
  upload_args options !! k =
    if decide (k = "url") then None
    else if decide (k = "path") then None
    else if decide (k = "buffer") then None
    else if decide (k = "base64") then None
    else match options !! k with
         | Some v => Some v
         | None =>
             if decide (k = "method")
             then Some (js_or (prop options "method") (JStr "base64"))
             else if decide (k = "body")
                  then (if truthy (prop options "base64")
                        then Some (prop options "base64") else None)
                  else None
         end.
Proof.
  unfold upload_args, spread. rewrite !lookup_delete.
  destruct (decide (k = "url")) as [-> | Hurl]; [reflexivity |].
  rewrite (decide_False (P := "url" = k)) by congruence.
  destruct (decide (k = "path")) as [-> | Hpath]; [reflexivity |].
  rewrite (decide_False (P := "path" = k)) by congruence.
  destruct (decide (k = "buffer")) as [-> | Hbuffer]; [reflexivity |].
  rewrite (decide_False (P := "buffer" = k)) by congruence.
  destruct (decide (k = "base64")) as [-> | Hbase64]; [reflexivity |].
  rewrite (decide_False (P := "base64" = k)) by congruence.
  rewrite lookup_union. destruct (options !! k) as [v|] eqn:E.
  { match goal with |- Some v ∪ ?o = _ => destruct o; reflexivity end. }
  rewrite (left_id_L None _).
  destruct (decide (k = "method")) as [-> | Hmethod].
  { rewrite lookup_insert_eq. reflexivity. }
  rewrite lookup_insert_ne by congruence.
  destruct (truthy (prop options "base64")).
  - destruct (decide (k = "body")) as [-> | Hbody].
    + rewrite lookup_insert_eq. reflexivity.
    + rewrite lookup_insert_ne by congruence. apply lookup_empty.
  - rewrite lookup_empty. destruct (decide (k = "body")); reflexivity.
Qed.

(** X3: what [_upload] sends.  The four image-source fields never reach the
    transport; every other field of the options is sent as it is, and wins
    over what [_upload] computes: [method] is 'base64' only when the options
    have no [method] field at all, and [body] is the truthy [base64] option
    only when the options have no [body] field; nothing else is sent. *)
Theorem upload_args_fields (options : JsObject) :
  (forall k, k = "base64" \/ k = "buffer" \/ k = "path" \/ k = "url" ->
             upload_args options !! k = None)
  /\ (forall k v, k <> "base64" -> k <> "buffer" -> k <> "path" -> k <> "url" ->
                  options !! k = Some v -> upload_args options !! k = Some v)
  /\ (options !! "method" = None ->
      upload_args options !! "method" = Some (JStr "base64"))
  /\ (options !! "body" = None ->
      upload_args options !! "body"
      = if truthy (prop options "base64") then Some (prop options "base64") else None)
  /\ (forall k, k <> "method" -> k <> "body" -> options !! k = None ->
                upload_args options !! k = None).
Proof.
  repeat split.
  - intros k Hk. rewrite lookup_upload_args.
    repeat (case_decide; [reflexivity |]). intuition congruence.
  - intros k v H1 H2 H3 H4 Hv. rewrite lookup_upload_args, Hv.
    rewrite !decide_False by assumption. reflexivity.
  - intros Hm. rewrite lookup_upload_args, Hm. unfold prop. rewrite Hm. reflexivity.
  - intros Hb. rewrite lookup_upload_args, Hb. reflexivity.
  - intros k H1 H2 Hk. rewrite lookup_upload_args, Hk.
    repeat (case_decide; [reflexivity |]).
    rewrite !decide_False by assumption. reflexivity.
Qed.

Lemma upload_args_fields_witness :
  upload_args {[ "method" := JStr ""; "base64" := JStr "TWFu"; "path" := JStr "a.png" ]}
    !! "method" = Some (JStr "")
  /\ upload_args {[ "base64" := JStr "TWFu"; "path" := JStr "a.png" ]} !! "method"
     = Some (JStr "base64")
  /\ upload_args {[ "base64" := JStr "TWFu"; "path" := JStr "a.png" ]} !! "path" = None
  /\ upload_args {[ "base64" := JStr "TWFu"; "path" := JStr "a.png" ]} !! "body"
     = Some (JStr "TWFu").
Proof.
  destruct (upload_args_fields
              {[ "method" := JStr ""; "base64" := JStr "TWFu"; "path" := JStr "a.png" ]})
    as [_ [Hkeep _]].
  destruct (upload_args_fields {[ "base64" := JStr "TWFu"; "path" := JStr "a.png" ]})
    as [Hdrop [_ [Hmethod [Hbody _]]]].
  split; [apply Hkeep; [discriminate .. | reflexivity] |].
  split; [apply Hmethod; reflexivity |].
  split; [apply Hdrop; auto |].
  rewrite Hbody by reflexivity. reflexivity.
Defined.

(** ** The text of a solution *)

Lemma split_pieces_no_sep sep s :
  Forall (fun piece => includes piece (String sep "") = false) (split sep s).
Proof.
  induction s as [|c s IH]; simpl.
  - repeat constructor.
  - destruct (Ascii.eqb c sep) eqn:E.
    + constructor; [reflexivity | exact IH].
    + assert (Hc : forall piece, includes piece (String sep "") = false ->
                                 includes (String c piece) (String sep "") = false).
      { intros piece Hp. simpl. rewrite Ascii.eqb_sym, E. exact Hp. }
      destruct (split sep s) as [|h t].
      * constructor; [apply Hc; reflexivity | constructor].
      * inversion IH; subst. constructor; [apply Hc; assumption | assumption].
Qed.

Lemma second_field_no_bar body s :
  second_field body = JStr s -> includes s "|" = false.
Proof.
  unfold second_field, split_limit, at_index. intros H.
  destruct (take 2 (split "|"%char body) !! 1%nat) as [piece|] eqn:E; [| discriminate].
  injection H as <-. apply lookup_take_Some in E as [E _].
  pose proof (split_pieces_no_sep "|"%char body) as Hall.
  rewrite Forall_lookup in Hall. exact (Hall _ _ E).
Qed.

Section SolutionText.

Variable env : Env.
Variable errors : gmap string string.
Variable this : TwoCaptchaClient.

(** X7: the text of a polled Captcha never contains the delimiter: it is
    cut at the second [|] of the answer, so that an answer [a|b|rest]
    gives the text [b] and [rest] is lost; likewise the id that [_upload]
    extracts. *)
Theorem text_is_cut_at_the_delimiter :
  (forall captchaId w c w' s,
      captcha env errors this captchaId w = (Returned c, w') ->
      Captcha.text c = JStr s -> ~ contains "|" s)
  /\ (forall options w c w' s,
         _upload env errors this options w = (Returned c, w') ->
         Captcha.id c = JStr s -> ~ contains "|" s)
  /\ (forall captchaId w a b rest,
         includes a "|" = false -> includes b "|" = false ->
         http_reply env w (api_request this "res" "get" (poll_args captchaId))
         = Resolved (a +:+ "|" +:+ b +:+ "|" +:+ rest) ->
         response_message errors (a +:+ "|" +:+ b +:+ "|" +:+ rest) = None ->
         fst (captcha env errors this captchaId w)
         = Returned (Captcha.mk captchaId (JStr (a +:+ "|" +:+ b +:+ "|" +:+ rest))
                       (JStr b))).
Proof.
  split; [| split].
  - intros captchaId w c w' s H Ht.
    apply captcha_returned in H as [body [-> _]]. simpl in Ht.
    apply second_field_no_bar in Ht. intros Hc.
    apply includes_spec in Hc. congruence.
  - intros options w c w' s H Hid. unfold _upload in H.
    apply bind_returned in H as [res [w1 [_ H]]].
    apply bind_returned in H as [v [w2 [_ H]]].
    unfold ret in H. injection H as <- _. simpl in Hid.
    apply second_field_no_bar in Hid. intros Hc.
    apply includes_spec in Hc. congruence.
  - intros captchaId w a b rest Ha Hb Hr Hv.
    rewrite (captcha_resolved _ _ _ _ _ _ Hr). unfold bind.
    rewrite (validateResponse_valid _ _ _ _ _ Hv). simpl.
    destruct (second_field_spec a b Ha Hb) as [_ H]. rewrite H. reflexivity.
Qed.

End SolutionText.

Lemma text_is_cut_at_the_delimiter_witness :
  fst (captcha (scripted [] "OK|ab|cd" []) sample_errors (sample_client true)
         (JStr "2122988149") start)
  = Returned (Captcha.mk (JStr "2122988149") (JStr "OK|ab|cd") (JStr "ab")).
Proof.
  destruct (text_is_cut_at_the_delimiter
              (scripted [] "OK|ab|cd" []) sample_errors (sample_client true))
    as [_ [_ H]].
  apply (H (JStr "2122988149") start "OK" "ab" "cd");
    [reflexivity | reflexivity | reflexivity | vm_compute; reflexivity].
Defined.

(** ** What every method sends and raises *)

Section Footprint.

Variable env : Env.
Variable errors : gmap string string.
Variable this : TwoCaptchaClient.

Lemma emits_ret {A} P (a : A) : emits P (ret a).
Proof. intros w. exists []. simpl. rewrite app_nil_r. auto. Qed.

Lemma emits_raise {A} P e : emits P (@raise A e).
Proof. intros w. exists []. simpl. rewrite app_nil_r. auto. Qed.

Lemma emits_out_of_fuel {A} P : emits P (@out_of_fuel A).
Proof. intros w. exists []. simpl. rewrite app_nil_r. auto. Qed.

Lemma emits_Date_now P : emits P Date_now.
Proof. intros w. exists []. simpl. rewrite app_nil_r. auto. Qed.

Lemma emits_happen (P : Event -> Prop) e : P e -> emits P (happen env e).
Proof. intros H w. exists [e]. simpl. auto. Qed.

Lemma emits_bind {A B} P (m : M A) (k : A -> M B) :
  emits P m -> (forall a, emits P (k a)) -> emits P (bind m k).
Proof.
  intros Hm Hk w. unfold bind. destruct (Hm w) as [evs [H1 H2]].
  destruct (m w) as [[a| |] w']; simpl in *; [| exists evs; auto ..].
  destruct (Hk a w') as [evs' [H1' H2']]. exists (evs ++ evs').
  rewrite H1', H1, <- app_assoc. split; [reflexivity | apply Forall_app; auto].
Qed.

Lemma emits_await {A} P (r : IOResult A) : emits P (await r).
Proof. destruct r; [apply emits_ret | apply emits_raise]. Qed.

Lemma emits_when {A} P b (m : M A) : emits P m -> emits P (when b m).
Proof.
  intros Hm. unfold when. destruct b; [| apply emits_ret].
  apply emits_bind; [exact Hm | intros; apply emits_ret].
Qed.

Lemma emits_throwError (P : Event -> Prop) message :
  (forall m, P (EWarn m)) -> emits P (_throwError env this message).
Proof.
  intros HP. unfold _throwError.
  destruct (String.eqb message NOT_SOLVED_YET); [apply emits_ret |].
  destruct (throwErrors this); [apply emits_raise |].
  apply emits_bind; [apply emits_happen, HP | intros; apply emits_ret].
Qed.

Lemma emits_validateResponse (P : Event -> Prop) body :
  (forall m, P (EWarn m)) -> emits P (_validateResponse env errors this body).
Proof.
  intros HP. unfold _validateResponse.
  destruct (response_message errors body);
    [apply emits_throwError, HP | apply emits_ret].
Qed.

Lemma emits_request (P : Event -> Prop) action meth args :
  (forall m, P (EWarn m)) ->
  (forall reply, P (EHttp (api_request this action meth args) reply)) ->
  emits P (_request env errors this action meth args).
Proof.
  intros HW HR. unfold _request. apply emits_bind.
  - intros w. exists [EHttp (api_request this action meth args)
                        (http_reply env w (api_request this action meth args))].
    split; [| repeat constructor; apply HR].
    unfold HTTPRequest_request, bind, happen, await. simpl.
    destruct (http_reply env w (api_request this action meth args)); reflexivity.
  - intros req. apply emits_bind; [apply emits_validateResponse, HW |].
    intros; apply emits_ret.
Qed.

Lemma emits_toISOString P date : emits P (toISOString date).
Proof. destruct date; simpl; first [apply emits_ret | apply emits_raise]. Qed.

Lemma emits_toString_base64 P v : emits P (toString_base64 v).
Proof. destruct v; simpl; first [apply emits_ret | apply emits_raise]. Qed.

Lemma emits_readFileAsync (P : Event -> Prop) path :
  (forall reply, P (EReadFile path reply)) -> emits P (readFileAsync env path).
Proof.
  intros HP w. exists [EReadFile path (read_file_reply env w path)].
  split; [| repeat constructor; apply HP].
  unfold readFileAsync, bind, happen, await. simpl.
  destruct (read_file_reply env w path); reflexivity.
Qed.

Lemma emits_openDataURL (P : Event -> Prop) target :
  (forall reply, P (EOpenDataURL target reply)) ->
  emits P (HTTPRequest_openDataURL env target).
Proof.
  intros HP w. exists [EOpenDataURL target (data_url_reply env w target)].
  split; [| repeat constructor; apply HP].
  unfold HTTPRequest_openDataURL, bind, happen, await. simpl.
  destruct (data_url_reply env w target); reflexivity.
Qed.

Lemma emits_upload P options :
  common this P -> emits P (_upload env errors this options).
Proof.
  intros [HW [_ HR]]. unfold _upload.
  apply emits_bind; [apply emits_request; auto |].
  intros res. apply emits_bind; [apply emits_validateResponse, HW |].
  intros; apply emits_ret.
Qed.

Lemma emits_captcha P captchaId :
  common this P -> emits P (captcha env errors this captchaId).
Proof.
  intros [HW [_ HR]]. unfold captcha.
  apply emits_bind; [apply emits_request; auto | intros; apply emits_ret].
Qed.

Lemma emits_poll_loop P fuel delay startedAt :
  common this P ->
  forall decodedCaptcha,
    emits P (poll_loop env errors fuel this delay startedAt decodedCaptcha).
Proof.
  intros HP. pose proof HP as [HW [HS HR]].
  induction fuel as [|fuel IH]; intros c; simpl.
  - destruct (negb (truthy (Captcha.text c)));
      [apply emits_out_of_fuel | apply emits_ret].
  - destruct (negb (truthy (Captcha.text c))); [| apply emits_ret].
    apply emits_bind; [apply emits_happen, HS |]. intros _.
    apply emits_bind; [apply emits_Date_now |]. intros t.
    destruct (t - startedAt >? timeout this).
    + apply emits_bind; [apply emits_throwError, HW | intros; apply emits_ret].
    + apply emits_bind; [apply emits_captcha, HP | exact IH].
Qed.

Lemma emits_loadCaptcha (P : Event -> Prop) options :
  (forall m, P (EWarn m)) ->
  (forall path reply, P (EReadFile path reply)) ->
  (forall target reply, P (EOpenDataURL target reply)) ->
  emits P (_loadCaptcha env this options).
Proof.
  intros HW HF HU. unfold _loadCaptcha.
  destruct (truthy (prop options "base64")); [apply emits_ret |].
  destruct (truthy (prop options "buffer")); [apply emits_toString_base64 |].
  destruct (truthy (prop options "path")).
  { apply emits_bind; [apply emits_readFileAsync, HF |].
    intros; apply emits_toString_base64. }
  destruct (truthy (prop options "url")).
  { apply emits_bind; [apply emits_openDataURL, HU |].
    intros; apply emits_toString_base64. }
  apply emits_bind; [apply emits_throwError, HW | intros; apply emits_ret].
Qed.

Lemma signed_api_request action meth args :
  signed this (api_request this action meth args).
Proof.
  unfold signed, api_request. simpl. repeat split.
  - rewrite lookup_insert_ne by discriminate. apply lookup_insert_eq.
  - apply lookup_insert_eq.
Qed.

Lemma common_signed : common this (signed_event this).
Proof.
  repeat split; simpl; auto.
  - rewrite lookup_insert_ne by discriminate. apply lookup_insert_eq.
  - apply lookup_insert_eq.
Qed.

Ltac emits_steps HP :=
  repeat (apply emits_bind;
          [first [apply emits_Date_now
                 | apply emits_when, emits_throwError, HP
                 | apply emits_upload, HP
                 | apply emits_loadCaptcha; simpl; auto; apply HP
                 | apply emits_request; [apply HP | intros; apply HP] ]
          | intros]);
  first [apply emits_poll_loop, HP | apply emits_ret | idtac].

(** X2: every request that any method of the client hands to the
    transport carries the client's key, the field [soft_id] with the
    value 2386 and the client's timeout, whatever the caller put into the
    arguments under those names. *)
Theorem every_request_is_signed fuel options captchaId bad date :
  (forall action meth args, signed this (api_request this action meth args))
  /\ emits (signed_event this) (balance env errors this)
  /\ emits (signed_event this) (captcha env errors this captchaId)
  /\ emits (signed_event this) (load env errors this)
  /\ emits (signed_event this) (stats env errors this date)
  /\ emits (signed_event this) (report env errors this captchaId bad)
  /\ emits (signed_event this) (decode env errors fuel this options)
  /\ emits (signed_event this) (decodeRecaptchaV2 env errors fuel this options)
  /\ emits (signed_event this) (decodeRecaptchaV3 env errors fuel this options)
  /\ emits (signed_event this) (decodeHCaptcha env errors fuel this options).
Proof.
  pose proof common_signed as HP.
  split; [apply signed_api_request |].
  repeat split.
  - unfold balance. emits_steps HP.
  - apply emits_captcha, HP.
  - unfold load. apply emits_request; [apply HP | intros; apply HP].
  - unfold stats. apply emits_bind; [apply emits_toISOString |].
    intros iso. emits_steps HP.
  - unfold report. emits_steps HP.
  - unfold decode. emits_steps HP.
  - unfold decodeRecaptchaV2. emits_steps HP.
  - unfold decodeRecaptchaV3. emits_steps HP.
  - unfold decodeHCaptcha. emits_steps HP.
Qed.

End Footprint.

(** ** The exceptions of a non-throwing client *)

Section NonThrowing.

Variable env : Env.
Variable errors : gmap string string.
Variable this : TwoCaptchaClient.

Hypothesis Hwarn : throwErrors this = false.

Lemma raises_only_bind {A B} Q (m : M A) (k : A -> M B) :
  raises_only Q m -> (forall a, raises_only Q (k a)) -> raises_only Q (bind m k).
Proof.
  intros Hm Hk w e w'. unfold bind.
  destruct (m w) as [[a| |] w1] eqn:E.
  - apply Hk.
  - intros H. injection H as <- <-. exact (Hm _ _ _ E).
  - discriminate.
Qed.

Lemma never_raises_ret {A} Q (a : A) : raises_only Q (ret a).
Proof. intros w e w'. discriminate. Qed.

Lemma never_raises_out_of_fuel {A} Q : raises_only Q (@out_of_fuel A).
Proof. intros w e w'. discriminate. Qed.

Lemma never_raises_Date_now Q : raises_only Q Date_now.
Proof. intros w e w'. discriminate. Qed.

Lemma never_raises_happen Q ev : raises_only Q (happen env ev).
Proof. intros w e w'. discriminate. Qed.

Lemma never_raises_throwError Q message :
  raises_only Q (_throwError env this message).
Proof.
  unfold _throwError. rewrite Hwarn.
  destruct (String.eqb message NOT_SOLVED_YET); [apply never_raises_ret |].
  apply raises_only_bind; [apply never_raises_happen | intros; apply never_raises_ret].
Qed.

Lemma never_raises_when Q b message :
  raises_only Q (when b (_throwError env this message)).
Proof.
  unfold when. destruct b; [| apply never_raises_ret].
  apply raises_only_bind; [apply never_raises_throwError | intros; apply never_raises_ret].
Qed.

Lemma never_raises_validateResponse Q body :
  raises_only Q (_validateResponse env errors this body).
Proof.
  unfold _validateResponse.
  destruct (response_message errors body);
    [apply never_raises_throwError | apply never_raises_ret].
Qed.

Lemma raises_await {A} (r : IOResult A) : raises_only not_thrown_by_client (await r).
Proof.
  intros w e w'. destruct r; simpl; [discriminate |].
  unfold raise. intros H. injection H as <- _. exact I.
Qed.

Lemma raises_request action meth args :
  raises_only not_thrown_by_client (_request env errors this action meth args).
Proof.
  unfold _request. apply raises_only_bind.
  - intros w. unfold HTTPRequest_request.
    apply (raises_only_bind _ (happen env _) (fun _ => await _));
      [apply never_raises_happen | intros; apply raises_await].
  - intros req. apply raises_only_bind;
      [apply never_raises_validateResponse | intros; apply never_raises_ret].
Qed.

Lemma raises_upload options :
  raises_only not_thrown_by_client (_upload env errors this options).
Proof.
  unfold _upload. apply raises_only_bind; [apply raises_request |].
  intros res. apply raises_only_bind;
    [apply never_raises_validateResponse | intros; apply never_raises_ret].
Qed.

Lemma raises_captcha captchaId :
  raises_only not_thrown_by_client (captcha env errors this captchaId).
Proof.
  unfold captcha. apply raises_only_bind;
    [apply raises_request | intros; apply never_raises_ret].
Qed.

Lemma raises_poll_loop fuel delay startedAt :
  forall decodedCaptcha,
    raises_only not_thrown_by_client
      (poll_loop env errors fuel this delay startedAt decodedCaptcha).
Proof.
  induction fuel as [|fuel IH]; intros c; simpl.
  - destruct (negb (truthy (Captcha.text c)));
      [apply never_raises_out_of_fuel | apply never_raises_ret].
  - destruct (negb (truthy (Captcha.text c))); [| apply never_raises_ret].
    apply raises_only_bind; [apply never_raises_happen |]. intros _.
    apply raises_only_bind; [apply never_raises_Date_now |]. intros t.
    destruct (t - startedAt >? timeout this).
    + apply raises_only_bind;
        [apply never_raises_throwError | intros; apply never_raises_ret].
    + apply raises_only_bind; [apply raises_captcha | exact IH].
Qed.

Lemma raises_toString_base64 v :
  truthy v = true -> raises_only not_thrown_by_client (toString_base64 v).
Proof.
  intros Hv w e w'. destruct v; simpl; try discriminate.
  unfold raise. intros H. injection H as <- _. exact I.
Qed.

Lemma raises_loadCaptcha options :
  raises_only not_thrown_by_client (_loadCaptcha env this options).
Proof.
  unfold _loadCaptcha.
  destruct (truthy (prop options "base64")); [apply never_raises_ret |].
  destruct (truthy (prop options "buffer")) eqn:Hb;
    [apply raises_toString_base64, Hb |].
  destruct (truthy (prop options "path")).
  { apply raises_only_bind; [| intros; apply raises_toString_base64; reflexivity].
    intros w. unfold readFileAsync.
    apply (raises_only_bind _ (happen env _) (fun _ => await _));
      [apply never_raises_happen | intros; apply raises_await]. }
  destruct (truthy (prop options "url")).
  { apply raises_only_bind; [| intros; apply raises_toString_base64; reflexivity].
    intros w. unfold HTTPRequest_openDataURL.
    apply (raises_only_bind _ (happen env _) (fun _ => await _));
      [apply never_raises_happen | intros; apply raises_await]. }
  apply raises_only_bind; [apply never_raises_throwError | intros; apply never_raises_ret].
Qed.

Ltac raises_steps :=
  repeat (apply raises_only_bind;
          [first [apply never_raises_Date_now
                 | apply never_raises_when
                 | apply raises_upload
                 | apply raises_loadCaptcha
                 | apply raises_request]
          | intros]);
  first [apply raises_poll_loop | apply never_raises_ret | idtac].

(** X4: a client with [throwErrors] unset never throws an error of its
    own.  Whatever the options and the replies, an exception that leaves
    one of its methods is a rejection of a collaborator (the transport,
    the file system, the image fetch) or a RangeError (of a badly typed
    buffer, or of an invalid date given to [stats]).  Where a throwing
    client would throw, the error is only logged: [_throwError] with a
    message other than [NOT_SOLVED_YET], and with it the validator on a
    body that it reports, writes the message with [console.warn] once,
    does nothing else and returns false. *)
Theorem non_throwing_client_never_throws fuel options captchaId bad date :
  raises_only not_thrown_by_client (balance env errors this)
  /\ raises_only not_thrown_by_client (captcha env errors this captchaId)
  /\ raises_only not_thrown_by_client (load env errors this)
  /\ raises_only not_thrown_by_client (stats env errors this date)
  /\ raises_only not_thrown_by_client (report env errors this captchaId bad)
  /\ raises_only not_thrown_by_client (decode env errors fuel this options)
  /\ raises_only not_thrown_by_client (decodeRecaptchaV2 env errors fuel this options)
  /\ raises_only not_thrown_by_client (decodeRecaptchaV3 env errors fuel this options)
  /\ raises_only not_thrown_by_client (decodeHCaptcha env errors fuel this options)
  /\ (forall message w,
        message <> NOT_SOLVED_YET ->
        _throwError env this message w
        = (Returned (JBool false), after env w (EWarn message)))
  /\ (forall body message w,
        reported_error errors body message ->
        _validateResponse env errors this body w
        = (Returned (JBool false), after env w (EWarn message))).
Proof.
  repeat match goal with |- _ /\ _ => split end.
  - unfold balance. raises_steps.
  - apply raises_captcha.
  - unfold load. apply raises_request.
  - unfold stats. apply raises_only_bind; [| intros iso; raises_steps].
    intros w e w'. destruct date; simpl; [discriminate |].
    unfold raise. intros H. injection H as <- _. exact I.
  - unfold report. raises_steps.
  - unfold decode. raises_steps.
  - unfold decodeRecaptchaV2. raises_steps.
  - unfold decodeRecaptchaV3. raises_steps.
  - unfold decodeHCaptcha. raises_steps.
  - intros message w Hm. apply throwError_warn; assumption.
  - intros body message w He.
    rewrite (validateResponse_reported env errors this body message w He), Hwarn.
    reflexivity.
Qed.

End NonThrowing.

Lemma non_throwing_client_never_throws_witness :
  fst (decodeRecaptchaV2 unreachable sample_errors 3 (sample_client false)
         {[ "googlekey" := JStr ""; "pageurl" := JStr "" ]} start)
  = Raised (Rejection "ECONNREFUSED")
  /\ not_thrown_by_client (Rejection "ECONNREFUSED")
  /\ _validateResponse unreachable sample_errors (sample_client false)
       "ERROR_ZERO_BALANCE" start
     = (Returned (JBool false),
        after unreachable start (EWarn "You don't have funds on your account.")).
Proof.
  destruct (non_throwing_client_never_throws unreachable sample_errors
              (sample_client false) eq_refl 3
              {[ "googlekey" := JStr ""; "pageurl" := JStr "" ]}
              JUndefined true InvalidDate)
    as [_ [_ [_ [_ [_ [_ [H [_ [_ [_ Hv]]]]]]]]]].
  split; [vm_compute; reflexivity | split].
  - apply (H start (Rejection "ECONNREFUSED")
             (snd (decodeRecaptchaV2 unreachable sample_errors 3 (sample_client false)
                     {[ "googlekey" := JStr ""; "pageurl" := JStr "" ]} start))).
    vm_compute. reflexivity.
  - apply Hv. split; [vm_compute; reflexivity | discriminate].
Defined.

(** ** How long a call takes *)

Section Timing.

Variable env : Env.
Variable errors : gmap string string.
Variable this : TwoCaptchaClient.

Hypothesis Hclock : clock_monotone env.

Lemma takes_bind {A B} d1 d2 d (m : M A) (k : A -> M B) :
  takes_at_least d1 m -> (forall a, takes_at_least d2 (k a)) ->
  d <= d1 + d2 ->
  takes_at_least d (bind m k).
Proof.
  intros Hm Hk Hd w b w' H.
  apply bind_returned in H as [a [w1 [H1 H2]]].
  apply Hm in H1. apply Hk in H2. lia.
Qed.

Lemma takes_bind_0 {A B} (m : M A) (k : A -> M B) :
  takes_at_least 0 m -> (forall a, takes_at_least 0 (k a)) ->
  takes_at_least 0 (bind m k).
Proof. intros Hm Hk. apply (takes_bind 0 0); auto. lia. Qed.

Lemma takes_ret {A} (a : A) : takes_at_least 0 (ret a).
Proof. intros w b w' H. injection H as _ <-. lia. Qed.

Lemma takes_raise {A} d e : takes_at_least d (@raise A e).
Proof. intros w b w' H. discriminate. Qed.

Lemma takes_Date_now : takes_at_least 0 Date_now.
Proof. intros w b w' H. injection H as _ <-. lia. Qed.

Lemma takes_happen e : takes_at_least 0 (happen env e).
Proof.
  intros w b w' H. injection H as _ <-. simpl. pose proof (Hclock w e). lia.
Qed.

Lemma takes_sleep delay D :
  timer_at_least env delay D -> takes_at_least D (_sleep env delay).
Proof.
  intros Ht w b w' H. injection H as _ <-. simpl. pose proof (Ht w). lia.
Qed.

Lemma takes_await {A} (r : IOResult A) : takes_at_least 0 (await r).
Proof. destruct r; [apply takes_ret | apply takes_raise]. Qed.

Lemma takes_throwError message : takes_at_least 0 (_throwError env this message).
Proof.
  unfold _throwError.
  destruct (String.eqb message NOT_SOLVED_YET); [apply takes_ret |].
  destruct (throwErrors this); [apply takes_raise |].
  apply takes_bind_0; [apply takes_happen | intros; apply takes_ret].
Qed.

Lemma takes_when b message : takes_at_least 0 (when b (_throwError env this message)).
Proof.
  unfold when. destruct b; [| apply takes_ret].
  apply takes_bind_0; [apply takes_throwError | intros; apply takes_ret].
Qed.

Lemma takes_validateResponse body :
  takes_at_least 0 (_validateResponse env errors this body).
Proof.
  unfold _validateResponse.
  destruct (response_message errors body); [apply takes_throwError | apply takes_ret].
Qed.

Lemma takes_request action meth args :
  takes_at_least 0 (_request env errors this action meth args).
Proof.
  unfold _request. apply takes_bind_0.
  - intros w. unfold HTTPRequest_request.
    apply (takes_bind_0 (happen env _) (fun _ => await _));
      [apply takes_happen | intros; apply takes_await].
  - intros req. apply takes_bind_0;
      [apply takes_validateResponse | intros; apply takes_ret].
Qed.

Lemma takes_upload options : takes_at_least 0 (_upload env errors this options).
Proof.
  unfold _upload. apply takes_bind_0; [apply takes_request |].
  intros res. apply takes_bind_0;
    [apply takes_validateResponse | intros; apply takes_ret].
Qed.

Lemma takes_captcha captchaId : takes_at_least 0 (captcha env errors this captchaId).
Proof.
  unfold captcha. apply takes_bind_0; [apply takes_request | intros; apply takes_ret].
Qed.

Lemma takes_toString_base64 v : takes_at_least 0 (toString_base64 v).
Proof. destruct v; simpl; first [apply takes_ret | apply takes_raise]. Qed.

Lemma takes_loadCaptcha options : takes_at_least 0 (_loadCaptcha env this options).
Proof.
  unfold _loadCaptcha.
  destruct (truthy (prop options "base64")); [apply takes_ret |].
  destruct (truthy (prop options "buffer")); [apply takes_toString_base64 |].
  destruct (truthy (prop options "path")).
  { apply takes_bind_0; [| intros; apply takes_toString_base64].
    intros w. unfold readFileAsync.
    apply (takes_bind_0 (happen env _) (fun _ => await _));
      [apply takes_happen | intros; apply takes_await]. }
  destruct (truthy (prop options "url")).
  { apply takes_bind_0; [| intros; apply takes_toString_base64].
    intros w. unfold HTTPRequest_openDataURL.
    apply (takes_bind_0 (happen env _) (fun _ => await _));
      [apply takes_happen | intros; apply takes_await]. }
  apply takes_bind_0; [apply takes_throwError | intros; apply takes_ret].
Qed.

Lemma takes_poll_loop fuel delay startedAt :
  forall decodedCaptcha,
    takes_at_least 0 (poll_loop env errors fuel this delay startedAt decodedCaptcha).
Proof.
  induction fuel as [|fuel IH]; intros c; simpl.
  - destruct (negb (truthy (Captcha.text c))); [| apply takes_ret].
    intros w b w' H. discriminate.
  - destruct (negb (truthy (Captcha.text c))); [| apply takes_ret].
    apply takes_bind_0; [apply takes_happen |]. intros _.
    apply takes_bind_0; [apply takes_Date_now |]. intros t.
    destruct (t - startedAt >? timeout this).
    + apply takes_bind_0; [apply takes_throwError | intros; apply takes_ret].
    + apply takes_bind_0; [apply takes_captcha | exact IH].
Qed.

(** Entered without a text, the loop sleeps once at least. *)
Lemma takes_poll_loop_pending fuel delay D startedAt decodedCaptcha :
  timer_at_least env delay D ->
  truthy (Captcha.text decodedCaptcha) = false ->
  takes_at_least D (poll_loop env errors fuel this delay startedAt decodedCaptcha).
Proof.
  intros Ht Hc. destruct fuel as [|fuel]; simpl; rewrite Hc; simpl.
  - intros w b w' H. discriminate.
  - apply (takes_bind D 0); [apply takes_sleep, Ht | | lia]. intros _.
    apply takes_bind_0; [apply takes_Date_now |]. intros t.
    destruct (t - startedAt >? timeout this).
    + apply takes_bind_0; [apply takes_throwError | intros; apply takes_ret].
    + apply takes_bind_0; [apply takes_captcha | apply takes_poll_loop].
Qed.

Lemma takes_upload_then_poll fuel delay D startedAt options :
  timer_at_least env delay D ->
  takes_at_least D
    (decodedCaptcha <- _upload env errors this options ;;
     poll_loop env errors fuel this delay startedAt decodedCaptcha).
Proof.
  intros Ht w b w' H.
  apply bind_returned in H as [c [w1 [Hu Hl]]].
  pose proof (takes_upload _ _ _ _ Hu).
  apply upload_returned in Hu.
  assert (Hc : truthy (Captcha.text c) = false) by (rewrite Hu; reflexivity).
  apply (takes_poll_loop_pending fuel delay D startedAt c Ht Hc) in Hl. lia.
Qed.

Ltac takes_steps D Ht :=
  repeat (apply (takes_bind 0 D);
          [first [apply takes_Date_now | apply takes_when | apply takes_loadCaptcha]
          | intros | lia]);
  apply takes_upload_then_poll, Ht.

(** X10: no [decode...] call returns before one polling delay has passed.
    Even when the solution is ready at once, the call sleeps before its
    first poll: when a timer set for the loop's delay takes [D]
    milliseconds at least, every call that returns (a Captcha, or
    undefined after the timeout) has taken [D] milliseconds at least. *)
Theorem decode_takes_one_delay_at_least D fuel options :
  (timer_at_least env (Z.max (polling this) 10) D ->
   takes_at_least D (decodeRecaptchaV2 env errors fuel this options)
   /\ takes_at_least D (decodeRecaptchaV3 env errors fuel this options)
   /\ takes_at_least D (decodeHCaptcha env errors fuel this options))
  /\ (timer_at_least env (polling this) D ->
      takes_at_least D (decode env errors fuel this options)).
Proof.
  split; [intros Ht; repeat split | intros Ht].
  - unfold decodeRecaptchaV2. takes_steps D Ht.
  - unfold decodeRecaptchaV3. takes_steps D Ht.
  - unfold decodeHCaptcha. takes_steps D Ht.
  - unfold decode. takes_steps D Ht.
Qed.

End Timing.

Lemma decode_takes_one_delay_at_least_witness :
  takes_at_least 20
    (decode (scripted ["OK|2122988149"; "OK|ABCD1234"] "" []) sample_errors 5
       (sample_client true) {[ "base64" := JStr "TWFu" ]})
  /\ now (snd (decode (scripted ["OK|2122988149"; "OK|ABCD1234"] "" []) sample_errors 5
                 (sample_client true) {[ "base64" := JStr "TWFu" ]} start)) = 20.
Proof.
  split; [| vm_compute; reflexivity].
  assert (Hclock : clock_monotone (scripted ["OK|2122988149"; "OK|ABCD1234"] "" []))
    by (intros w e; destruct e; simpl; lia).
  destruct (decode_takes_one_delay_at_least
              (scripted ["OK|2122988149"; "OK|ABCD1234"] "" []) sample_errors
              (sample_client true) Hclock 20 5 {[ "base64" := JStr "TWFu" ]})
    as [_ H].
  apply H. intros w. simpl. lia.
Defined.

(** ** The two ways a call returns, and what it exchanges *)

Section Returns.

Variable env : Env.
Variable errors : gmap string string.
Variable this : TwoCaptchaClient.

Lemma timeout_warned w v w' :
  _throwError env this "Captcha timeout" w = (Returned v, w') ->
  throwErrors this = false /\ w' = after env w (EWarn "Captcha timeout").
Proof.
  unfold _throwError. simpl. destruct (throwErrors this); [discriminate |].
  intros H. injection H as _ <-. auto.
Qed.

Lemma poll_loop_undefined delay startedAt :
  forall fuel decodedCaptcha w w',
    poll_loop env errors fuel this delay startedAt decodedCaptcha w
    = (Returned Undefined, w') ->
    throwErrors this = false
    /\ exists w1 pre,
         w' = after env w1 (EWarn "Captcha timeout")
         /\ trace w1 = pre ++ [ESleep delay]
         /\ timeout this < now w1 - startedAt.
Proof.
  induction fuel as [|fuel IH]; intros c w w' H; simpl in H.
  - destruct (negb (truthy (Captcha.text c))); discriminate.
  - destruct (negb (truthy (Captcha.text c))); [| discriminate].
    apply bind_returned in H as [[] [w1 [Hs H]]].
    injection Hs as <-.
    apply bind_returned in H as [t [w1' [Hnow H]]].
    injection Hnow as <- <-.
    match type of H with
    | context [if ?b then _ else _] => destruct b eqn:Hcheck
    end.
    + apply bind_returned in H as [v [w2 [Hthrow H]]].
      injection H as <-. apply timeout_warned in Hthrow as [Hw ->].
      split; [exact Hw |].
      exists (after env w (ESleep delay)), (trace w).
      split; [reflexivity |]. split; [reflexivity |].
      apply Z.gtb_lt in Hcheck. simpl. lia.
    + apply bind_returned in H as [c1 [w2 [_ H]]]. exact (IH _ _ _ H).
Qed.

Ltac undefined_by_loop H :=
  let a := fresh "a" in
  let w0 := fresh "w" in
  let Hnow := fresh "Hnow" in
  apply bind_returned in H as [a [w0 [Hnow H]]];
  injection Hnow as <- <-;
  do 3 (let b := fresh "b" in
        let w1 := fresh "w" in
        apply bind_returned in H as [b [w1 [_ H]]]);
  exact (poll_loop_undefined _ _ _ _ _ _ H).

(** X6: undefined means timeout.  A [decode...] call returns undefined
    only when [throwErrors] is unset and its timeout has fired: the last
    thing it did is log 'Captcha timeout', right after a sleep of the loop
    that ended more than [timeout] milliseconds after the call began. *)
Theorem undefined_means_timeout fuel options w w' :
  (decodeRecaptchaV2 env errors fuel this options w = (Returned Undefined, w')
   \/ decodeRecaptchaV3 env errors fuel this options w = (Returned Undefined, w')
   \/ decodeHCaptcha env errors fuel this options w = (Returned Undefined, w') ->
   throwErrors this = false
   /\ exists w1 pre,
        w' = after env w1 (EWarn "Captcha timeout")
        /\ trace w1 = pre ++ [ESleep (Z.max (polling this) 10)]
        /\ timeout this < now w1 - now w)
  /\ (decode env errors fuel this options w = (Returned Undefined, w') ->
      throwErrors this = false
      /\ exists w1 pre,
           w' = after env w1 (EWarn "Captcha timeout")
           /\ trace w1 = pre ++ [ESleep (polling this)]
           /\ timeout this < now w1 - now w).
Proof.
  split.
  - intros [H | [H | H]].
    + unfold decodeRecaptchaV2 in H. undefined_by_loop H.
    + unfold decodeRecaptchaV3 in H. undefined_by_loop H.
    + unfold decodeHCaptcha in H. undefined_by_loop H.
  - intros H. unfold decode in H. undefined_by_loop H.
Qed.

Lemma exchanges_app a b : exchanges (a ++ b) = exchanges a ++ exchanges b.
Proof. apply omap_app. Qed.

Lemma exchanges_warnings ws : exchanges (map EWarn ws) = [].
Proof. induction ws; simpl; auto. Qed.

Lemma exchanges_no_request evs : Forall no_request evs -> exchanges evs = [].
Proof.
  induction 1 as [|e evs He _ IH]; [reflexivity |].
  destruct e; simpl in *; try exact IH. contradiction.
Qed.

Lemma poll_loop_keeps_id delay startedAt :
  forall fuel decodedCaptcha w c w',
    poll_loop env errors fuel this delay startedAt decodedCaptcha w
    = (Returned (Object c), w') ->
    Captcha.id c = Captcha.id decodedCaptcha.
Proof.
  induction fuel as [|fuel IH]; intros c0 w c w' H; simpl in H.
  - destruct (negb (truthy (Captcha.text c0))); [discriminate |].
    injection H as <- _. reflexivity.
  - destruct (negb (truthy (Captcha.text c0)));
      [| injection H as <- _; reflexivity].
    apply bind_returned in H as [[] [w1 [_ H]]].
    apply bind_returned in H as [t [w2 [_ H]]].
    destruct (t - startedAt >? timeout this).
    + apply bind_returned in H as [v [w3 [_ H]]]. discriminate.
    + apply bind_returned in H as [c1 [w3 [Hc H]]].
      apply captcha_returned in Hc as [body [-> _]].
      apply IH in H. exact H.
Qed.

Lemma poll_loop_exchanges delay startedAt :
  forall fuel decodedCaptcha w,
  exists evs,
    trace (snd (poll_loop env errors fuel this delay startedAt decodedCaptcha w))
    = trace w ++ evs
    /\ Forall (fun x => fst x = api_request this "res" "get"
                                  (poll_args (Captcha.id decodedCaptcha)))
         (exchanges evs).
Proof.
  induction fuel as [|fuel IH]; intros c w; simpl.
  - exists []. rewrite app_nil_r.
    destruct (negb (truthy (Captcha.text c))); split; constructor.
  - destruct (negb (truthy (Captcha.text c)));
      [| exists []; rewrite app_nil_r; split; constructor].
    unfold bind at 1. unfold _sleep, happen.
    unfold bind at 1. unfold Date_now.
    set (w1 := after env w (ESleep delay)).
    destruct (now w1 - startedAt >? timeout this).
    + destruct (throwError_trace env this "Captcha timeout" w1) as [ws Hws].
      exists (ESleep delay :: map EWarn ws).
      split; [| unfold exchanges; simpl; fold (exchanges (map EWarn ws));
                rewrite exchanges_warnings; constructor].
      unfold bind.
      change (trace w1) with (trace w ++ [ESleep delay]) in Hws.
      rewrite <- app_assoc in Hws.
      destruct (_throwError _ _ _ _) as [[v| |] w']; exact Hws.
    + destruct (captcha_trace env errors this (Captcha.id c) w1) as [ws Hws].
      change (trace w1) with (trace w ++ [ESleep delay]) in Hws.
      rewrite <- app_assoc in Hws. simpl in Hws.
      unfold bind.
      destruct (captcha _ _ _ _ _) as [[c1| |] w2] eqn:E; simpl in Hws.
      * destruct (IH c1 w2) as [evs [Hevs Hall]].
        apply captcha_returned in E as [body [-> _]]. simpl in Hall.
        eexists. split; [rewrite Hevs, Hws, <- app_assoc; reflexivity |].
        unfold exchanges. simpl. fold (exchanges (map EWarn ws ++ evs)).
        rewrite exchanges_app, exchanges_warnings. simpl.
        constructor; [reflexivity | exact Hall].
      * eexists. split; [simpl; rewrite Hws; reflexivity |].
        unfold exchanges. simpl. fold (exchanges (map EWarn ws)).
        rewrite exchanges_warnings. repeat constructor.
      * eexists. split; [simpl; rewrite Hws; reflexivity |].
        unfold exchanges. simpl. fold (exchanges (map EWarn ws)).
        rewrite exchanges_warnings. repeat constructor.
Qed.

Lemma upload_returned_id options w c w' :
  _upload env errors this options w = (Returned c, w') ->
  Captcha.id c
  = handle (http_reply env w (api_request this "in" "post" (upload_args options))).
Proof.
  intros H.
  destruct (http_reply env w (api_request this "in" "post" (upload_args options)))
    as [body|r] eqn:Hr.
  - rewrite (upload_resolved _ _ _ _ _ _ Hr) in H.
    apply bind_returned in H as [v [w1 [_ H]]].
    apply bind_returned in H as [v' [w2 [_ H]]].
    injection H as <- _. reflexivity.
  - unfold _upload, _request, HTTPRequest_request, bind, happen, await in H.
    simpl in H. rewrite Hr in H. discriminate.
Qed.

Lemma upload_then_poll_exchanges fuel delay startedAt options :
  polls_for_its_submission this
    (decodedCaptcha <- _upload env errors this options ;;
     poll_loop env errors fuel this delay startedAt decodedCaptcha).
Proof.
  intros w.
  destruct (upload_trace env errors this options w) as [ws Hws].
  set (req := api_request this "in" "post" (upload_args options)) in *.
  set (reply := http_reply env w req) in *.
  assert (Hx : forall evs, exchanges (EHttp req reply :: map EWarn ws ++ evs)
                           = (req, reply) :: exchanges evs).
  { intros evs. unfold exchanges at 1. simpl. fold (exchanges (map EWarn ws ++ evs)).
    rewrite exchanges_app, exchanges_warnings. reflexivity. }
  unfold bind.
  destruct (_upload env errors this options w) as [[c0| |] w1] eqn:Hu; simpl in Hws.
  - destruct (poll_loop_exchanges delay startedAt fuel c0 w1) as [evs [Hevs Hall]].
    apply upload_returned_id in Hu. fold req reply in Hu. rewrite Hu in Hall.
    exists (EHttp req reply :: map EWarn ws ++ evs).
    split; [rewrite Hevs, Hws, <- app_assoc; reflexivity |].
    rewrite Hx. split.
    + right. exists (upload_args options), reply, (exchanges evs). auto.
    + intros c Hc. exists (upload_args options), reply, (exchanges evs).
      split; [reflexivity |].
      destruct (poll_loop env errors fuel this delay startedAt c0 w1) as [o w2] eqn:Hl.
      simpl in Hc. subst o. apply poll_loop_keeps_id in Hl. congruence.
  - exists (EHttp req reply :: map EWarn ws ++ []).
    split; [simpl; rewrite app_nil_r; exact Hws |]. rewrite Hx. split.
    + right. exists (upload_args options), reply, []. split; [reflexivity | constructor].
    + simpl. discriminate.
  - exists (EHttp req reply :: map EWarn ws ++ []).
    split; [simpl; rewrite app_nil_r; exact Hws |]. rewrite Hx. split.
    + right. exists (upload_args options), reply, []. split; [reflexivity | constructor].
    + simpl. discriminate.
Qed.

Lemma polls_for_its_submission_bind {A} (m : M A) (k : A -> M Result) :
  emits no_request m ->
  (forall a, polls_for_its_submission this (k a)) ->
  polls_for_its_submission this (bind m k).
Proof.
  intros Hm Hk w. unfold bind. destruct (Hm w) as [pre [H1 H2]].
  apply exchanges_no_request in H2.
  destruct (m w) as [[a| |] w1]; simpl in H1.
  - destruct (Hk a w1) as [evs [He [Hs Hc]]].
    exists (pre ++ evs). rewrite He, H1, <- app_assoc, exchanges_app, H2.
    simpl. auto.
  - exists pre. rewrite H2. simpl. split; [exact H1 |].
    split; [left; reflexivity | discriminate].
  - exists pre. rewrite H2. simpl. split; [exact H1 |].
    split; [left; reflexivity | discriminate].
Qed.

Ltac exchanges_steps :=
  repeat (apply polls_for_its_submission_bind;
          [first [apply emits_Date_now
                 | apply emits_when, emits_throwError; intros; exact I
                 | apply emits_loadCaptcha; intros; exact I]
          | intros]);
  apply upload_then_poll_exchanges.

(** X9: one call, one task.  Seen from the transport, a [decode...] call
    is nothing at all, or one submission (a POST to [in.php]) followed
    only by polls (GETs to [res.php]), every one of them for the id that is
    the second field of the submission's reply (undefined when the reply
    has none); it never submits twice, and a Captcha that it returns bears
    that same id. *)
Theorem one_submission_then_its_polls fuel options :
  polls_for_its_submission this (decode env errors fuel this options)
  /\ polls_for_its_submission this (decodeRecaptchaV2 env errors fuel this options)
  /\ polls_for_its_submission this (decodeRecaptchaV3 env errors fuel this options)
  /\ polls_for_its_submission this (decodeHCaptcha env errors fuel this options).
Proof.
  repeat split.
  - unfold decode. exchanges_steps.
  - unfold decodeRecaptchaV2. exchanges_steps.
  - unfold decodeRecaptchaV3. exchanges_steps.
  - unfold decodeHCaptcha. exchanges_steps.
Qed.

End Returns.

Lemma undefined_means_timeout_witness :
  throwErrors (sample_client false) = false
  /\ exists w1 pre,
       snd (decodeRecaptchaV2 (never_solving []) sample_errors 4 (sample_client false)
              {[ "googlekey" := JStr "6Le-wvkS"; "pageurl" := JStr "https://example.com/" ]}
              start)
       = after (never_solving []) w1 (EWarn "Captcha timeout")
       /\ trace w1 = pre ++ [ESleep (Z.max (polling (sample_client false)) 10)]
       /\ timeout (sample_client false) < now w1 - now start.
Proof.
  destruct (undefined_means_timeout (never_solving []) sample_errors (sample_client false) 4
              {[ "googlekey" := JStr "6Le-wvkS"; "pageurl" := JStr "https://example.com/" ]}
              start
              (snd (decodeRecaptchaV2 (never_solving []) sample_errors 4
                      (sample_client false)
                      {[ "googlekey" := JStr "6Le-wvkS";
                         "pageurl" := JStr "https://example.com/" ]} start)))
    as [H _].
  apply H. left. apply injective_projections; [vm_compute; reflexivity | reflexivity].
Defined.

(** ** When a collaborator fails *)

Section Failures.

Variable env : Env.
Variable errors : gmap string string.
Variable this : TwoCaptchaClient.

Lemma request_rejected action meth args w reason :
  http_reply env w (api_request this action meth args) = Rejected reason ->
  _request env errors this action meth args w
  = (Raised (Rejection reason),
     after env w (EHttp (api_request this action meth args) (Rejected reason))).
Proof.
  intros H. unfold _request, HTTPRequest_request, bind, happen, await. simpl.
  rewrite H. reflexivity.
Qed.

Lemma upload_rejected options w reason :
  http_reply env w (api_request this "in" "post" (upload_args options)) = Rejected reason ->
  _upload env errors this options w
  = (Raised (Rejection reason),
     after env w (EHttp (api_request this "in" "post" (upload_args options))
                     (Rejected reason))).
Proof.
  intros H. unfold _upload. apply bind_raised, request_rejected, H.
Qed.

(** X5: a rejection of the transport is never caught, logged or retried.
    When the transport is down, every query raises the rejection after its
    one request, whatever [throwErrors] is, and a [decode...] call with
    well-formed options raises it after the submission: it does not sleep
    and does not poll. *)
Theorem transport_rejection_propagates reason fuel options captchaId bad w :
  transport_down env reason ->
  (exists req, balance env errors this w
               = (Raised (Rejection reason), after env w (EHttp req (Rejected reason))))
  /\ (exists req, captcha env errors this captchaId w
                  = (Raised (Rejection reason), after env w (EHttp req (Rejected reason))))
  /\ (exists req, report env errors this captchaId bad w
                  = (Raised (Rejection reason), after env w (EHttp req (Rejected reason))))
  /\ (prop options "googlekey" <> JStr "" -> prop options "pageurl" <> JStr "" ->
      (exists req, decodeRecaptchaV2 env errors fuel this options w
                   = (Raised (Rejection reason),
                      after env w (EHttp req (Rejected reason))))
      /\ (exists req, decodeRecaptchaV3 env errors fuel this options w
                      = (Raised (Rejection reason),
                         after env w (EHttp req (Rejected reason)))))
  /\ (prop options "sitekey" <> JStr "" -> prop options "pageurl" <> JStr "" ->
      exists req, decodeHCaptcha env errors fuel this options w
                  = (Raised (Rejection reason), after env w (EHttp req (Rejected reason))))
  /\ (typeof_not_string (key this) = false -> truthy (prop options "base64") = true ->
      exists req, decode env errors fuel this options w
                  = (Raised (Rejection reason), after env w (EHttp req (Rejected reason)))).
Proof.
  intros Hdown. repeat split.
  - eexists. unfold balance. apply bind_raised, request_rejected, Hdown.
  - eexists. unfold captcha. apply bind_raised, request_rejected, Hdown.
  - eexists. unfold report. apply bind_raised, request_rejected, Hdown.
  - apply strict_eq_str_false in H, H0. eexists. unfold decodeRecaptchaV2.
    rewrite bind_Date_now, H, bind_when_false, H0, bind_when_false.
    apply bind_raised, upload_rejected, Hdown.
  - apply strict_eq_str_false in H, H0. eexists. unfold decodeRecaptchaV3.
    rewrite bind_Date_now, H, bind_when_false, H0, bind_when_false.
    apply bind_raised, upload_rejected, Hdown.
  - intros Hs Hp. apply strict_eq_str_false in Hs, Hp. eexists. unfold decodeHCaptcha.
    rewrite bind_Date_now, Hs, bind_when_false, Hp, bind_when_false.
    apply bind_raised, upload_rejected, Hdown.
  - intros Hkey Hb64. eexists. unfold decode.
    rewrite bind_Date_now, Hkey, bind_when_false.
    unfold _loadCaptcha. rewrite Hb64, bind_ret.
    apply bind_raised, upload_rejected, Hdown.
Qed.

(** X11: the image is loaded before anything is sent.  With [base64] or
    [buffer] given, [decode] reads no file and fetches no URL, whatever
    else the options hold; and when the file of [path] (or, without a
    path, the image of [url]) cannot be loaded, [decode] raises that
    rejection at once, whatever [throwErrors] is: no request has gone to
    the API. *)
Theorem image_is_loaded_first fuel options w :
  (truthy (prop options "base64") = true \/ truthy (prop options "buffer") = true ->
   emits no_image_load (decode env errors fuel this options))
  /\ (forall reason,
         typeof_not_string (key this) = false ->
         truthy (prop options "base64") = false ->
         truthy (prop options "buffer") = false ->
         truthy (prop options "path") = true ->
         read_file_reply env w (prop options "path") = Rejected reason ->
         decode env errors fuel this options w
         = (Raised (Rejection reason),
            after env w (EReadFile (prop options "path") (Rejected reason))))
  /\ (forall reason,
         typeof_not_string (key this) = false ->
         truthy (prop options "base64") = false ->
         truthy (prop options "buffer") = false ->
         truthy (prop options "path") = false ->
         truthy (prop options "url") = true ->
         data_url_reply env w (prop options "url") = Rejected reason ->
         decode env errors fuel this options w
         = (Raised (Rejection reason),
            after env w (EOpenDataURL (prop options "url") (Rejected reason)))).
Proof.
  split; [| split].
  - intros Hsrc.
    assert (HP : common this no_image_load) by (repeat split; simpl; auto).
    unfold decode.
    apply emits_bind; [apply emits_Date_now |]. intros startedAt.
    apply emits_bind; [apply emits_when, emits_throwError, HP |]. intros _.
    apply emits_bind.
    + unfold _loadCaptcha.
      destruct (truthy (prop options "base64")); [apply emits_ret |].
      destruct Hsrc as [Hsrc | Hsrc]; [discriminate |]. rewrite Hsrc.
      apply emits_toString_base64.
    + intros base64. apply emits_bind; [apply emits_upload, HP |].
      intros c. apply emits_poll_loop, HP.
  - intros reason Hkey Hb Hbuf Hp Hr. unfold decode.
    rewrite bind_Date_now, Hkey, bind_when_false.
    apply bind_raised. unfold _loadCaptcha. rewrite Hb, Hbuf, Hp.
    apply bind_raised. unfold readFileAsync, bind, happen, await. simpl.
    rewrite Hr. reflexivity.
  - intros reason Hkey Hb Hbuf Hp Hu Hr. unfold decode.
    rewrite bind_Date_now, Hkey, bind_when_false.
    apply bind_raised. unfold _loadCaptcha. rewrite Hb, Hbuf, Hp, Hu.
    apply bind_raised. unfold HTTPRequest_openDataURL, bind, happen, await. simpl.
    rewrite Hr. reflexivity.
Qed.

End Failures.

Lemma transport_rejection_propagates_witness :
  exists req,
    decodeRecaptchaV2 unreachable sample_errors 3 (sample_client false)
      {[ "googlekey" := JStr "6Le-wvkS"; "pageurl" := JStr "https://example.com/" ]} start
    = (Raised (Rejection "ECONNREFUSED"),
       after unreachable start (EHttp req (Rejected "ECONNREFUSED"))).
Proof.
  destruct (transport_rejection_propagates unreachable sample_errors (sample_client false)
              "ECONNREFUSED" 3
              {[ "googlekey" := JStr "6Le-wvkS"; "pageurl" := JStr "https://example.com/" ]}
              JUndefined true start)
    as [_ [_ [_ [H _]]]]; [intros w req; reflexivity |].
  destruct H as [H _]; [vm_compute; discriminate .. | exact H].
Defined.

Lemma image_is_loaded_first_witness :
  decode unreachable sample_errors 3 (sample_client false)
    {[ "path" := JStr "captcha.png" ]} start
  = (Raised (Rejection "ENOENT"),
     after unreachable start (EReadFile (JStr "captcha.png") (Rejected "ENOENT"))).
Proof.
  destruct (image_is_loaded_first unreachable sample_errors (sample_client false) 3
              {[ "path" := JStr "captcha.png" ]} start) as [_ [H _]].
  apply (H "ENOENT"); reflexivity.
Defined.

(** ** Remote errors while polling *)

Section PollErrors.

Variable env : Env.
Variable errors : gmap string string.
Variable this : TwoCaptchaClient.
Variable message : string.

Hypothesis Hclock : clock_monotone env.
Hypothesis Hfailing : always_failing env errors this message.
Hypothesis Hwarn : throwErrors this = false.

Lemma warnings_app a b : warnings (a ++ b) = warnings a ++ warnings b.
Proof. apply omap_app. Qed.

Lemma captcha_failing captchaId w :
  exists body,
    captcha env errors this captchaId w
    = (Returned (Captcha.mk captchaId (JStr body) (second_field body)),
       after env (after env w (EHttp (api_request this "res" "get" (poll_args captchaId))
                                 (Resolved body)))
         (EWarn message))
    /\ truthy (second_field body) = false.
Proof.
  destruct (Hfailing w captchaId) as [body [Hr [Hm [Hn Hs]]]].
  exists body. split; [| exact Hs].
  rewrite (captcha_resolved _ _ _ _ _ _ Hr). unfold bind.
  rewrite (validateResponse_reported env errors this body message);
    [| split; assumption].
  rewrite Hwarn. reflexivity.
Qed.

Lemma poll_loop_gives_up delay D startedAt :
  1 <= D -> timer_at_least env delay D ->
  forall fuel decodedCaptcha w,
    truthy (Captcha.text decodedCaptcha) = false ->
    (Z.to_nat ((timeout this - (now w - startedAt)) / D) < fuel)%nat ->
    exists n w',
      (n <= Z.to_nat ((timeout this - (now w - startedAt)) / D))%nat
      /\ poll_loop env errors fuel this delay startedAt decodedCaptcha w
         = (Returned Undefined, w')
      /\ warnings (trace w')
         = warnings (trace w) ++ replicate n message ++ ["Captcha timeout"]
      /\ sleeps (trace w') = sleeps (trace w) ++ replicate (S n) delay.
Proof.
  intros HD Htimer.
  induction fuel as [|fuel IH]; intros c w Htext Hfuel; [lia |].
  simpl. rewrite Htext. simpl.
  unfold bind at 1. unfold _sleep, happen.
  unfold bind at 1. unfold Date_now.
  set (w1 := after env w (ESleep delay)).
  assert (Hw1 : now w + D <= now w1) by (simpl; specialize (Htimer w); lia).
  destruct (now w1 - startedAt >? timeout this) eqn:Hcheck.
  - exists O, (after env w1 (EWarn "Captcha timeout")).
    split; [lia |]. split; [| split].
    + unfold bind, _throwError. simpl. rewrite Hwarn. reflexivity.
    + simpl. rewrite !warnings_app. simpl. rewrite app_nil_r. reflexivity.
    + simpl. rewrite !sleeps_app. simpl. rewrite app_nil_r. reflexivity.
  - assert (Hle : now w1 - startedAt <= timeout this).
    { destruct (Z.gtb_spec (now w1 - startedAt) (timeout this)); [discriminate | lia]. }
    destruct (captcha_failing (Captcha.id c) w1) as [body [Hc Hs]].
    unfold bind at 1. rewrite Hc.
    set (w2 := after env _ (EWarn message)).
    assert (Hw2 : now w1 <= now w2).
    { unfold w2. simpl.
      pose proof (Hclock w1 (EHttp (api_request this "res" "get"
                                      (poll_args (Captcha.id c))) (Resolved body))).
      pose proof (Hclock (after env w1 (EHttp (api_request this "res" "get"
                                      (poll_args (Captcha.id c))) (Resolved body)))
                    (EWarn message)).
      simpl in *. lia. }
    destruct (rounds_bound (timeout this) (now w - startedAt) (now w2 - startedAt) D fuel)
      as [Hb1 Hb2]; [lia .. | exact Hfuel |].
    destruct (IH (Captcha.mk (Captcha.id c) (JStr body) (second_field body)) w2 Hs Hb2)
      as [n [w' [Hn [Hrun [Hwarns Hsleeps]]]]].
    exists (S n), w'. split; [lia |]. split; [exact Hrun |]. split.
    + rewrite Hwarns. unfold w2. simpl. rewrite !warnings_app. simpl.
      repeat rewrite app_nil_r. repeat rewrite <- app_assoc. reflexivity.
    + rewrite Hsleeps. unfold w2. simpl. rewrite !sleeps_app. simpl.
      repeat rewrite app_nil_r. repeat rewrite <- app_assoc. reflexivity.
Qed.

Lemma upload_then_poll_gives_up d D fuel options startedAt w :
  always_accepts env errors this ->
  1 <= D -> timer_at_least env d D ->
  (Z.to_nat (timeout this / D) < fuel)%nat ->
  startedAt = now w ->
  gives_up_by_timeout this d D message
    (decodedCaptcha <- _upload env errors this options ;;
     poll_loop env errors fuel this d startedAt decodedCaptcha) w.
Proof.
  intros Hacc HD Htimer Hfuel ->.
  destruct (Hacc w (upload_args options)) as [sub [Hr Hv]].
  set (req := api_request this "in" "post" (upload_args options)) in *.
  set (w1 := after env w (EHttp req (Resolved sub))).
  assert (Hw1 : now w <= now w1)
    by (simpl; pose proof (Hclock w (EHttp req (Resolved sub))); lia).
  assert (Hdiv : (timeout this - (now w1 - now w)) / D <= timeout this / D)
    by (apply Z.div_le_mono; lia).
  destruct (poll_loop_gives_up d D (now w) HD Htimer fuel
              (Captcha.mk (second_field sub) JUndefined JUndefined) w1)
    as [n [w' [Hn [Hrun [Hwarns Hsleeps]]]]]; [reflexivity | lia |].
  exists n, w'. split; [| split; [lia | split]].
  - unfold bind. rewrite (upload_resolved _ _ _ _ _ _ Hr). unfold bind.
    rewrite !(validateResponse_valid _ _ _ _ _ Hv). exact Hrun.
  - rewrite Hwarns. simpl. rewrite warnings_app. simpl. rewrite app_nil_r. reflexivity.
  - rewrite Hsleeps. simpl. rewrite sleeps_app. simpl. rewrite app_nil_r. reflexivity.
Qed.

Lemma gives_up_ext d D (m m' : M Result) w :
  m w = m' w -> gives_up_by_timeout this d D message m' w ->
  gives_up_by_timeout this d D message m w.
Proof. unfold gives_up_by_timeout. intros ->. auto. Qed.


End PollErrors.


(** ** The queries and the constructor *)

Section Queries.

Variable env : Env.
Variable errors : gmap string string.

Lemma request_hands_back this action meth args w body :
  hands_back env errors this (api_request this action meth args)
    (_request env errors this action meth args) w body.
Proof.
  intros Hr. rewrite (request_resolved _ _ _ _ _ _ _ _ Hr). unfold bind.
  set (w1 := after env w _). split.
  - intros Hno.
    destruct (validateResponse_no_reported env errors this body w1 Hno) as [v ->].
    reflexivity.
  - intros message He. rewrite (validateResponse_reported _ _ _ _ _ _ He).
    destruct (throwErrors this); reflexivity.
Qed.

Lemma bind_ret_same {A} (m : M A) w : (res <- m ;; ret res) w = m w.
Proof. unfold bind. destruct (m w) as [[a| |] w']; reflexivity. Qed.

(** X8: the queries hand the body back as it is.  [balance], [load] and
    [stats] return the very body that the transport resolved to, unless
    [throwErrors] is set and the validator reports an error on the body,
    which is then raised; so a non-throwing client returns a remote error
    code as if it were the balance or the statistics, and the one thing
    it does besides the exchange is to log the error's message.  [stats]
    cuts the date's ISO text to its first ten characters, and raises the
    RangeError of an invalid date before any exchange. *)
Theorem queries_return_the_body this w body :
  hands_back env errors this
    (api_request this "res" "get" {[ "action" := JStr "getbalance" ]})
    (balance env errors this) w body
  /\ hands_back env errors this (api_request this "load" "get" ∅)
       (load env errors this) w body
  /\ (forall iso,
        hands_back env errors this
          (api_request this "res" "get"
             (<["action" := JStr "getstats"]>
                {[ "date" := JStr (String.substring 0 10 iso) ]}))
          (stats env errors this (ValidDate iso)) w body)
  /\ stats env errors this InvalidDate w
     = (Raised (RangeError "Invalid time value"), w).
Proof.
  split; [| split; [| split]].
  - unfold balance. intros Hr. rewrite bind_ret_same.
    apply request_hands_back, Hr.
  - unfold load. apply request_hands_back.
  - intros iso. unfold hands_back.
    change (stats env errors this (ValidDate iso) w)
      with ((res <- _request env errors this "res" "get" (stats_args iso) ;; ret res) w).
    rewrite bind_ret_same. apply request_hands_back.
  - reflexivity.
Qed.

(** X1: the constructor checks the key but, by default, only warns.  With
    a string key it returns the client and does nothing else; with any
    other key it raises '2Captcha key must be a string' only when
    [throwErrors] was asked for, and otherwise logs that message and
    returns a client that holds the key as given; absent parameters take
    60000, 5000 and false.  Such a client logs the message again at every
    [decode] and goes on with the call. *)
Theorem constructor_checks_the_key k params w :
  let this := {| key := k;
                 timeout := default 60000 (params_timeout params);
                 polling := default 5000 (params_polling params);
                 throwErrors := default false (params_throwErrors params) |} in
  (typeof_not_string k = false ->
   new_TwoCaptchaClient env k params w = (Returned this, w))
  /\ (typeof_not_string k = true -> params_throwErrors params = Some true ->
      new_TwoCaptchaClient env k params w
      = (Raised (Error "2Captcha key must be a string"), w))
  /\ (typeof_not_string k = true -> params_throwErrors params <> Some true ->
      new_TwoCaptchaClient env k params w
      = (Returned this, after env w (EWarn "2Captcha key must be a string"))
      /\ forall fuel options w0,
           decode env errors fuel this options w0
           = (base64 <- _loadCaptcha env this options ;;
              decodedCaptcha <- _upload env errors this (<["base64" := base64]> options) ;;
              poll_loop env errors fuel this (polling this) (now w0) decodedCaptcha)
               (after env w0 (EWarn "2Captcha key must be a string")))
  /\ new_TwoCaptchaClient env k no_params w
     = (if typeof_not_string k
        then (Returned {| key := k; timeout := 60000; polling := 5000;
                          throwErrors := false |},
              after env w (EWarn "2Captcha key must be a string"))
        else (Returned {| key := k; timeout := 60000; polling := 5000;
                          throwErrors := false |}, w)).
Proof.
  intros this. repeat split.
  - intros Hk. unfold new_TwoCaptchaClient. rewrite Hk. reflexivity.
  - intros Hk Ht. unfold new_TwoCaptchaClient. rewrite Hk.
    unfold when, bind, _throwError. simpl. rewrite Ht. reflexivity.
  - unfold new_TwoCaptchaClient. rewrite H. subst this.
    unfold when, bind, _throwError. simpl.
    destruct (params_throwErrors params) as [[|]|]; simpl;
      first [reflexivity | congruence].
  - intros fuel options w0. unfold decode. rewrite bind_Date_now.
    change (key this) with k. rewrite H. subst this.
    unfold when, bind at 1 2, _throwError. simpl.
    destruct (params_throwErrors params) as [[|]|]; simpl;
      first [reflexivity | congruence].
  - unfold new_TwoCaptchaClient. destruct (typeof_not_string k); reflexivity.
Qed.

End Queries.

Lemma queries_return_the_body_witness :
  balance (scripted [] "ERROR_ZERO_BALANCE" []) sample_errors (sample_client false) start
  = (Returned "ERROR_ZERO_BALANCE",
     after (scripted [] "ERROR_ZERO_BALANCE" [])
       (after (scripted [] "ERROR_ZERO_BALANCE" []) start
          (EHttp (api_request (sample_client false) "res" "get"
                    {[ "action" := JStr "getbalance" ]})
             (Resolved "ERROR_ZERO_BALANCE")))
       (EWarn "You don't have funds on your account."))
  /\ fst (stats (scripted [] "constructor" []) sample_errors (sample_client true)
            (ValidDate "2019-03-04T10:20:30.000Z") start)
     = Raised (Error "function Object() { [native code] }").
Proof.
  destruct (queries_return_the_body (scripted [] "ERROR_ZERO_BALANCE" []) sample_errors
              (sample_client false) start "ERROR_ZERO_BALANCE") as [H1 _].
  destruct (queries_return_the_body (scripted [] "constructor" []) sample_errors
              (sample_client true) start "constructor") as [_ [_ [H2 _]]].
  split.
  - destruct (H1 eq_refl) as [_ H].
    apply (H "You don't have funds on your account.").
    split; [vm_compute; reflexivity | discriminate].
  - destruct (H2 "2019-03-04T10:20:30.000Z" eq_refl) as [_ H].
    rewrite (H "function Object() { [native code] }");
      [reflexivity | split; [vm_compute; reflexivity | discriminate]].
Defined.

Lemma constructor_checks_the_key_witness :
  new_TwoCaptchaClient (scripted [] "" []) (JNum 42) no_params start
  = (Returned {| key := JNum 42; timeout := 60000; polling := 5000; throwErrors := false |},
     after (scripted [] "" []) start (EWarn "2Captcha key must be a string"))
  /\ new_TwoCaptchaClient (scripted [] "" []) (JNum 42) (Build_Params None None (Some true))
       start
     = (Raised (Error "2Captcha key must be a string"), start).
Proof.
  destruct (constructor_checks_the_key (scripted [] "" []) sample_errors (JNum 42)
              no_params start) as [_ [_ [H _]]].
  destruct (constructor_checks_the_key (scripted [] "" []) sample_errors (JNum 42)
              (Build_Params None None (Some true)) start) as [_ [H' _]].
  split.
  - destruct H as [H _]; [reflexivity | discriminate | exact H].
  - apply H'; reflexivity.
Defined.

(** ** The fields of an interactive submission *)

Section Whitelist.

Variable env : Env.
Variable errors : gmap string string.
Variable this : TwoCaptchaClient.

Lemma upload_args_without_image (options : JsObject) :
  options !! "base64" = None -> options !! "buffer" = None ->
  options !! "path" = None -> options !! "url" = None ->
  is_Some (options !! "method") ->
  upload_args options = options.
Proof.
  intros Hb Hbuf Hp Hu [m Hm]. apply map_eq. intros k.
  rewrite lookup_upload_args.
  destruct (decide (k = "url")) as [-> |]; [congruence |].
  destruct (decide (k = "path")) as [-> |]; [congruence |].
  destruct (decide (k = "buffer")) as [-> |]; [congruence |].
  destruct (decide (k = "base64")) as [-> |]; [congruence |].
  destruct (options !! k) as [v|] eqn:E; [reflexivity |].
  destruct (decide (k = "method")) as [-> |]; [congruence |].
  destruct (decide (k = "body")); [| reflexivity].
  unfold prop. rewrite Hb. reflexivity.
Qed.

Lemma check_keeps_requests (b : bool) message w :
  throwErrors this = false \/ b = false ->
  exists w1,
    when b (_throwError env this message) w = (Returned tt, w1)
    /\ requests (trace w1) = requests (trace w).
Proof.
  intros Hor. destruct b.
  - destruct Hor as [Hw | Hb]; [| discriminate].
    unfold when, bind, _throwError. rewrite Hw.
    destruct (String.eqb message NOT_SOLVED_YET).
    + exists w. auto.
    + eexists. split; [reflexivity |]. simpl. rewrite requests_app. simpl.
      apply app_nil_r.
  - exists w. auto.
Qed.

Lemma two_checks_then_submit fuel delay b1 b2 m1 m2 (uo : JsObject) w :
  throwErrors this = false \/ (b1 = false /\ b2 = false) ->
  upload_args uo = uo ->
  submits this uo
    (startedAt <- Date_now ;;
     when b1 (_throwError env this m1) ;;
     when b2 (_throwError env this m2) ;;
     decodedCaptcha <- _upload env errors this uo ;;
     poll_loop env errors fuel this delay startedAt decodedCaptcha) w.
Proof.
  intros Hor Huo. unfold submits. rewrite bind_Date_now.
  destruct (check_keeps_requests b1 m1 w) as [w1 [H1 Hr1]]; [tauto |].
  destruct (check_keeps_requests b2 m2 w1) as [w2 [H2 Hr2]]; [tauto |].
  unfold bind at 1. rewrite H1. unfold bind at 1. rewrite H2.
  destruct (upload_then_poll_requests env errors this fuel delay (now w) uo w2)
    as [rest Hrest].
  exists rest. rewrite Hrest, Huo, Hr2, Hr1. reflexivity.
Qed.

(** X13: the interactive methods send a fixed set of fields.  Unless a
    throwing client stops at an empty identity field, [decodeRecaptchaV2]
    first submits exactly method 'userrecaptcha', googlekey, pageurl and
    the flags invisible and enterprise as 0 or 1; [decodeRecaptchaV3]
    method, googlekey, pageurl, version 'v3', the action (the empty string
    when absent) and enterprise; [decodeHCaptcha] method 'hcaptcha',
    sitekey, pageurl and invisible.  Any other field of the options is
    dropped. *)
Theorem interactive_submissions_are_whitelisted fuel options w :
  (throwErrors this = false
   \/ (prop options "googlekey" <> JStr "" /\ prop options "pageurl" <> JStr "") ->
   submits this (recaptchaV2_fields options)
     (decodeRecaptchaV2 env errors fuel this options) w
   /\ submits this (recaptchaV3_fields options)
        (decodeRecaptchaV3 env errors fuel this options) w)
  /\ (throwErrors this = false
      \/ (prop options "sitekey" <> JStr "" /\ prop options "pageurl" <> JStr "") ->
      submits this (hcaptcha_fields options)
        (decodeHCaptcha env errors fuel this options) w)
  /\ (forall k,
         k <> "method" -> k <> "googlekey" -> k <> "pageurl" ->
         k <> "invisible" -> k <> "enterprise" ->
         recaptchaV2_fields options !! k = None)
  /\ (forall v, flag v = JNum 0 \/ flag v = JNum 1).
Proof.
  split; [| split; [| split]].
  - intros Hor.
    assert (Hor' : throwErrors this = false
                   \/ (strict_eq_str (prop options "googlekey") "" = false
                       /\ strict_eq_str (prop options "pageurl") "" = false)).
    { destruct Hor as [Hw | [Hg Hp]]; [left; exact Hw | right].
      split; apply strict_eq_str_false; assumption. }
    split.
    + apply two_checks_then_submit; [exact Hor' |].
      apply upload_args_without_image; try reflexivity. eexists. reflexivity.
    + apply two_checks_then_submit; [exact Hor' |].
      apply upload_args_without_image; try reflexivity. eexists. reflexivity.
  - intros Hor.
    assert (Hor' : throwErrors this = false
                   \/ (strict_eq_str (prop options "sitekey") "" = false
                       /\ strict_eq_str (prop options "pageurl") "" = false)).
    { destruct Hor as [Hw | [Hg Hp]]; [left; exact Hw | right].
      split; apply strict_eq_str_false; assumption. }
    apply two_checks_then_submit; [exact Hor' |].
    apply upload_args_without_image; try reflexivity. eexists. reflexivity.
  - intros k H1 H2 H3 H4 H5. unfold recaptchaV2_fields.
    rewrite !lookup_insert_ne by congruence.
    apply lookup_singleton_ne. congruence.
  - intros v. unfold flag. destruct (truthy v); auto.
Qed.

End Whitelist.

Lemma interactive_submissions_are_whitelisted_witness :
  submits (sample_client true)
    (recaptchaV2_fields {[ "googlekey" := JStr "6Le-wvkS";
                           "pageurl" := JStr "https://example.com/";
                           "proxy" := JStr "10.0.0.1:3128" ]})
    (decodeRecaptchaV2 (never_solving []) sample_errors 4 (sample_client true)
       {[ "googlekey" := JStr "6Le-wvkS"; "pageurl" := JStr "https://example.com/";
          "proxy" := JStr "10.0.0.1:3128" ]})
    start
  /\ recaptchaV2_fields {[ "googlekey" := JStr "6Le-wvkS";
                           "pageurl" := JStr "https://example.com/";
                           "proxy" := JStr "10.0.0.1:3128" ]} !! "proxy" = None.
Proof.
  destruct (interactive_submissions_are_whitelisted
              (never_solving []) sample_errors (sample_client true) 4
              {[ "googlekey" := JStr "6Le-wvkS"; "pageurl" := JStr "https://example.com/";
                 "proxy" := JStr "10.0.0.1:3128" ]} start)
    as [H [_ [Hk _]]].
  split.
  - destruct H as [H _]; [right; split; vm_compute; discriminate | exact H].
  - apply Hk; discriminate.
Defined.
